(** * zap-logger-filter: redaction of sensitive fields in structured logs

    A shallow embedding of [sensitive.go]: the sensitive field set
    ([SensitiveDataFilter]), the recursive value masker
    ([MaskSensitiveData], [maskSliceData]), the deferred wrapper
    ([SensitiveDataMarshaler.MarshalJSON]) and the redacting encoder
    ([SensitiveDataEncoder.EncodeEntry]), followed by the properties the
    specification states about them. *)

From Stdlib Require Import ZArith Ascii String.
From stdpp Require Import gmap strings list fin_maps sorting.

Set Warnings "-register-all".
Local Open Scope string_scope.

(** ** Go's [strings] package

    Go strings are byte sequences; they are modelled by [string], whose
    characters are bytes.  [ToLower] follows [strings.ToLower] on its
    ASCII path: every byte in ['A'..'Z'] is shifted by ['a' - 'A'], every
    other byte is kept.  This is what Go computes for every string whose
    characters outside ASCII are well-formed UTF-8 and have no case;
    the case mapping of letters outside ASCII (Go's Unicode tables) is
    not modelled. *)
Module GoStrings.

Definition isUpper (c : ascii) : bool :=
  (65 <=? nat_of_ascii c)%nat && (nat_of_ascii c <=? 90)%nat.

Definition isLower (c : ascii) : bool :=
  (97 <=? nat_of_ascii c)%nat && (nat_of_ascii c <=? 122)%nat.

Definition lowerByte (c : ascii) : ascii :=
  if isUpper c then ascii_of_nat (nat_of_ascii c + 32) else c.

Definition upperByte (c : ascii) : ascii :=
  if isLower c then ascii_of_nat (nat_of_ascii c - 32) else c.

Definition toggleByte (c : ascii) : ascii :=
  if isUpper c then ascii_of_nat (nat_of_ascii c + 32)
  else if isLower c then ascii_of_nat (nat_of_ascii c - 32)
  else c.

Fixpoint mapBytes (g : ascii → ascii) (s : string) : string :=
  match s with
  | EmptyString => EmptyString
  | String c s' => String (g c) (mapBytes g s')
  end.

Definition ToLower (s : string) : string := mapBytes lowerByte s.
Definition ToUpper (s : string) : string := mapBytes upperByte s.
Definition ToggleCase (s : string) : string := mapBytes toggleByte s.

(** Two bytes are case variants of each other when they are equal or
    are the upper-case and the lower-case form of one ASCII letter. *)
Definition byteVariant (c d : ascii) : bool :=
  bool_decide (c = d)
  || (isUpper c && bool_decide (nat_of_ascii d = nat_of_ascii c + 32))
  || (isUpper d && bool_decide (nat_of_ascii c = nat_of_ascii d + 32)).

(** Two names are case variants when they have the same length and are
    case variants byte by byte. *)
Fixpoint caseVariant (s t : string) : bool :=
  match s, t with
  | EmptyString, EmptyString => true
  | String c s', String d t' => byteVariant c d && caseVariant s' t'
  | _, _ => false
  end.

End GoStrings.
Import GoStrings.

(** ** The sensitive field set *)

(** [SensitiveDataFilter]: a Go [map[string]bool]; reading a key that is
    absent yields [false]. *)
Record SensitiveDataFilter : Type := mkFilter {
  sensitiveFields : gmap string bool
}.

Definition NewSensitiveDataFilter (fields : list string) : SensitiveDataFilter :=
  let sensitiveMap :=
    foldl (λ (acc : gmap string bool) (field : string),
             let lowerField := ToLower field in
             <[lowerField := true]> acc)
          ∅ fields in
  {| sensitiveFields := sensitiveMap |}.

Definition IsSensitiveField (f : SensitiveDataFilter) (fieldName : string) : bool :=
  if decide (fieldName = "") then false
  else
    let lowerField := ToLower fieldName in
    default false (sensitiveFields f !! lowerField).

(** ** Dynamic values *)

(** A JSON number literal [mant * 10 ^ exp10]. *)
Record number : Type := mkNumber { mant : Z; exp10 : Z }.

(** A JSON document, the abstract syntax of the text [encoding/json]
    writes and reads.  Object members are kept in textual order. *)
Inductive document : Type :=
  | JNull
  | JBool (b : bool)
  | JNumber (n : number)
  | JString (s : string)
  | JArray (items : list document)
  | JObject (members : list (string * document)).

(** A Go value of a type the masker does not look into (a struct, a
    typed map such as [map[string]string], a pointer, ...).  All the code
    ever does with it is hand it to [json.Marshal]; [rendering] is the
    document it marshals to, or [None] when marshalling it fails. *)
Record other : Type := mkOther {
  typeName : string;
  rendering : option document
}.

(** The dynamic values an [interface{}] holds.  [VMap None] and
    [VSlice None] are the nil map and the nil slice, which Go
    distinguishes from the empty ones and from the nil interface
    [VNil]. *)
Inductive value : Type :=
  | VNil
  | VBool (b : bool)
  | VNumber (n : number)
  | VString (s : string)
  | VMap (m : option (gmap string value))
  | VSlice (l : option (list value))
  | VOther (o : other).

Section Masking.

(** The package variable [Mask] (["***"] unless reassigned), read at
    the time a value is masked. *)
Variable Mask : string.
Variable f : SensitiveDataFilter.

(** The type switch both loops apply to a nested value, with the two
    mutually recursive functions unfolded into one recursion on the
    value. *)
Fixpoint maskValue (v : value) {struct v} : value :=
  match v with
  | VMap data =>
      VMap match data with
           | None => None
           | Some data =>
               Some (map_imap (λ key item,
                       let lowerKey := ToLower key in
                       if IsSensitiveField f lowerKey
                       then Some (VString Mask)
                       else Some (maskValue item)) data)
           end
  | VSlice slice =>
      VSlice match slice with
             | None => None
             | Some slice => Some (map maskValue slice)
             end
  | _ => v
  end.

Definition MaskSensitiveData (data : option (gmap string value))
  : option (gmap string value) :=
  match data with
  | None => None
  | Some data =>
      Some (map_imap (λ key item,
              let lowerKey := ToLower key in
              if IsSensitiveField f lowerKey
              then Some (VString Mask)
              else Some (maskValue item)) data)
  end.

Definition maskSliceData (slice : option (list value)) : option (list value) :=
  match slice with
  | None => None
  | Some slice => Some (map maskValue slice)
  end.

End Masking.

(** ** Errors and results *)

(** A Go [error]: one raised by [encoding/json], or one wrapped by
    [fmt.Errorf("<context>: %w", err)]. *)
Inductive error : Type :=
  | JSONError (msg : string)
  | Errorf (context : string) (err : error).

(** A Go result pair [(x, err)] in which exactly one side is set. *)
Inductive result (A : Type) : Type :=
  | Ok (a : A)
  | Err (e : error).
Arguments Ok {A} a.
Arguments Err {A} e.

(** ** The deferred wrapper *)

(** What a [zapcore.Field] carries in its [Interface] slot: a plain value
    or a pointer to a [SensitiveDataMarshaler], whose [Data] is again
    such a payload. *)
Inductive any : Type :=
  | AValue (v : value)
  | AMarshaler (m : SensitiveDataMarshaler)
with SensitiveDataMarshaler : Type :=
  | mkMarshaler (Data : any) (Filter : option SensitiveDataFilter).

Definition Data (m : SensitiveDataMarshaler) : any :=
  match m with mkMarshaler d _ => d end.
Definition Filter (m : SensitiveDataMarshaler) : option SensitiveDataFilter :=
  match m with mkMarshaler _ fl => fl end.

(** [x != nil] for an interface value. *)
Definition notNil (x : any) : bool :=
  match x with AValue VNil => false | _ => true end.

(** The part of [encoding/json] the wrapper calls: [json.Marshal], and
    [json.Unmarshal] into a [map[string]interface{}] and into a
    [[]interface{}] variable that starts out nil. *)
Class JSON : Type := {
  bytes : Type;
  json_Marshal : any → result bytes;
  json_Unmarshal_map : bytes → result (option (gmap string value));
  json_Unmarshal_slice : bytes → result (option (list value))
}.

Section Wrapper.

Variable Mask : string.
Context `{codec : JSON}.

Definition MarshalJSON (m : SensitiveDataMarshaler) : result bytes :=
  match Filter m with
  | None => json_Marshal (Data m)
  | Some filter =>
      match Data m with
      | AValue (VMap v) =>
          let maskedData := MaskSensitiveData Mask filter v in
          json_Marshal (AValue (VMap maskedData))
      | AValue (VSlice v) =>
          let maskedSlice := maskSliceData Mask filter v in
          json_Marshal (AValue (VSlice maskedSlice))
      | _ =>
          match json_Marshal (Data m) with
          | Err err => Err (Errorf "failed to marshal data" err)
          | Ok jsonData =>
              match json_Unmarshal_map jsonData with
              | Ok dataMap =>
                  let maskedData := MaskSensitiveData Mask filter dataMap in
                  match json_Marshal (AValue (VMap maskedData)) with
                  | Err marshalErr =>
                      Err (Errorf "failed to marshal masked data" marshalErr)
                  | Ok result => Ok result
                  end
              | Err _ =>
                  match json_Unmarshal_slice jsonData with
                  | Ok dataArray =>
                      let maskedArray := maskSliceData Mask filter dataArray in
                      match json_Marshal (AValue (VSlice maskedArray)) with
                      | Err marshalErr =>
                          Err (Errorf "failed to marshal masked array" marshalErr)
                      | Ok result => Ok result
                      end
                  | Err _ => Ok jsonData
                  end
              end
          end
      end
  end.

End Wrapper.

(** ** zap fields and encoders *)

Module zapcore.

Inductive FieldType : Type :=
  | UnknownType | ArrayMarshalerType | ObjectMarshalerType | BinaryType
  | BoolType | ByteStringType | Complex128Type | Complex64Type
  | DurationType | Float64Type | Float32Type | Int64Type | Int32Type
  | Int16Type | Int8Type | StringType | TimeType | TimeFullType
  | Uint64Type | Uint32Type | Uint16Type | Uint8Type | UintptrType
  | ReflectType | NamespaceType | StringerType | ErrorType | SkipType
  | InlineMarshalerType.

Global Instance FieldType_eq_dec : EqDecision FieldType.
Proof. solve_decision. Defined.

(** [zapcore.Field]; [Type_] and [String_] are its [Type] and [String]
    members. *)
Record Field : Type := mkField {
  Key : string;
  Type_ : FieldType;
  Integer : Z;
  String_ : string;
  Interface : any
}.

(** The [zapcore.Encoder] interface, reduced to the one method the
    redacting encoder overrides. *)
Record Encoder (Entry Buffer : Type) : Type := mkEncoder {
  EncodeEntry : Entry → list Field → result Buffer
}.
Arguments EncodeEntry {Entry Buffer} _ _ _.
Arguments mkEncoder {Entry Buffer} _.

End zapcore.

Module zap.

(** [zap.String(key, val)]. *)
Definition String (key val : string) : zapcore.Field :=
  {| zapcore.Key := key; zapcore.Type_ := zapcore.StringType;
     zapcore.Integer := 0; zapcore.String_ := val;
     zapcore.Interface := AValue VNil |}.

(** [zap.Any(key, marshaler)] for a [*SensitiveDataMarshaler]: the
    pointer implements none of the interfaces [zap.Any] singles out, so
    it ends in [zap.Reflect(key, marshaler)]. *)
Definition Any (key : string) (marshaler : SensitiveDataMarshaler) : zapcore.Field :=
  {| zapcore.Key := key; zapcore.Type_ := zapcore.ReflectType;
     zapcore.Integer := 0; zapcore.String_ := "";
     zapcore.Interface := AMarshaler marshaler |}.

End zap.

Section RedactingEncoder.

Variable Mask : string.
Context {Entry Buffer : Type}.

(** [SensitiveDataEncoder]: the embedded [zapcore.Encoder] and the
    filter pointer ([EncoderFilter] is its [Filter] member, nil when
    [None]). *)
Record SensitiveDataEncoder : Type := mkSensitiveDataEncoder {
  Encoder : zapcore.Encoder Entry Buffer;
  EncoderFilter : option SensitiveDataFilter
}.

Definition EncodeEntry (e : SensitiveDataEncoder) (ent : Entry)
    (fields : list zapcore.Field) : result Buffer :=
  match EncoderFilter e with
  | None => zapcore.EncodeEntry (Encoder e) ent fields
  | Some filter =>
      if decide (length fields = 0)
      then zapcore.EncodeEntry (Encoder e) ent fields
      else
        let filteredFields :=
          foldl (λ (filteredFields : list zapcore.Field) field,
                   let lowerKey := ToLower (zapcore.Key field) in
                   if IsSensitiveField filter lowerKey then
                     (filteredFields ++ [zap.String (zapcore.Key field) Mask])%list
                   else if (bool_decide (zapcore.Type_ field = zapcore.ReflectType)
                            || bool_decide (zapcore.Type_ field = zapcore.ObjectMarshalerType))
                           && notNil (zapcore.Interface field) then
                     let marshaler :=
                       mkMarshaler (zapcore.Interface field) (Some filter) in
                     (filteredFields ++ [zap.Any (zapcore.Key field) marshaler])%list
                   else
                     (filteredFields ++ [field])%list)
                [] fields in
        zapcore.EncodeEntry (Encoder e) ent filteredFields
  end.

End RedactingEncoder.
Arguments SensitiveDataEncoder : clear implicits.
Arguments mkSensitiveDataEncoder {Entry Buffer} _ _.

(** ** A model of [encoding/json]

    An instance of [JSON] on documents: a JSON text is identified with
    the document it denotes.  [json.Marshal] writes map keys in sorted
    order and fails on a value whose type it cannot render;
    [json.Unmarshal] into an [interface{}] yields nil, a bool, a float64,
    a string, a [[]interface{}] or a [map[string]interface{}], and fails
    on a number literal outside the float64 range.  A float64 read from a
    literal is represented by that literal, so number formatting is not
    modelled. *)
Module jsondoc.

Definition resultMap {A B} (g : A → B) (r : result A) : result B :=
  match r with Ok a => Ok (g a) | Err e => Err e end.

Fixpoint collect {A} (l : list (result A)) : result (list A) :=
  match l with
  | [] => Ok []
  | Ok a :: l' => resultMap (cons a) (collect l')
  | Err e :: _ => Err e
  end.

Definition collectMember {A} (p : string * result A) : result (string * A) :=
  resultMap (pair p.1) p.2.

Definition keyLe {A} (p q : string * A) : Prop := String.leb p.1 q.1.

(** The least magnitude that rounds to an infinite float64. *)
Definition float64Limit : Z := 2 ^ 1024 - 2 ^ 970.

Definition fitsFloat64 (n : number) : bool :=
  if (0 <=? exp10 n)%Z
  then (Z.abs (mant n) * 10 ^ exp10 n <? float64Limit)%Z
  else (Z.abs (mant n) <? float64Limit * 10 ^ (- exp10 n))%Z.

(** [json.Marshal] on a plain value. *)
Fixpoint encode (v : value) : result document :=
  match v with
  | VNil => Ok JNull
  | VBool b => Ok (JBool b)
  | VNumber n => Ok (JNumber n)
  | VString s => Ok (JString s)
  | VMap None => Ok JNull
  | VMap (Some m) =>
      resultMap JObject
        (collect (collectMember <$>
                    merge_sort keyLe (map_to_list (encode <$> m))))
  | VSlice None => Ok JNull
  | VSlice (Some l) => resultMap JArray (collect (map encode l))
  | VOther o =>
      match rendering o with
      | Some d => Ok d
      | None => Err (JSONError ("json: unsupported type: " ++ typeName o))
      end
  end.

(** [json.Unmarshal] into an [interface{}]; of two members with the
    same key the later one wins. *)
Fixpoint decode (d : document) : result value :=
  match d with
  | JNull => Ok VNil
  | JBool b => Ok (VBool b)
  | JNumber n =>
      if fitsFloat64 n then Ok (VNumber n)
      else Err (JSONError "json: cannot unmarshal number into Go value of type float64")
  | JString s => Ok (VString s)
  | JArray items =>
      resultMap (λ l, VSlice (Some l)) (collect (map decode items))
  | JObject members =>
      resultMap (λ kvs, VMap (Some (list_to_map (reverse kvs))))
        (collect (map (λ p, resultMap (pair p.1) (decode p.2)) members))
  end.

Definition UnmarshalMap (d : document) : result (option (gmap string value)) :=
  match d with
  | JNull => Ok None
  | JObject _ =>
      match decode d with
      | Ok (VMap m) => Ok m
      | Ok _ => Err (JSONError "json: unexpected value")
      | Err e => Err e
      end
  | _ => Err (JSONError "json: cannot unmarshal into Go value of type map[string]interface {}")
  end.

Definition UnmarshalSlice (d : document) : result (option (list value)) :=
  match d with
  | JNull => Ok None
  | JArray _ =>
      match decode d with
      | Ok (VSlice l) => Ok l
      | Ok _ => Err (JSONError "json: unexpected value")
      | Err e => Err e
      end
  | _ => Err (JSONError "json: cannot unmarshal into Go value of type []interface {}")
  end.

(** The model around a given [json.Marshal]. *)
Definition codecOf (marshal : any → result document) : JSON :=
  {| bytes := document;
     json_Marshal := marshal;
     json_Unmarshal_map := UnmarshalMap;
     json_Unmarshal_slice := UnmarshalSlice |}.

Section Marshal.

Variable Mask : string.

(** Marshaller nesting depth of a payload. *)
Fixpoint depth (a : any) : nat :=
  match a with
  | AValue _ => 0
  | AMarshaler (mkMarshaler d _) => S (depth d)
  end.

(** [json.Marshal] on a payload: a [*SensitiveDataMarshaler] is a
    [json.Marshaler], so its [MarshalJSON] is called and a failure
    is reported as a marshaler error.  The recursion through
    [MarshalJSON] is bounded by the nesting depth. *)
Fixpoint MarshalAt (n : nat) (a : any) : result document :=
  match a with
  | AValue v => encode v
  | AMarshaler m =>
      match n with
      | O => Err (JSONError "json: nesting depth exceeded")
      | S n' =>
          match MarshalJSON Mask (codec := codecOf (MarshalAt n')) m with
          | Ok b => Ok b
          | Err e => Err (Errorf "json: error calling MarshalJSON for type *zaploggerfilter.SensitiveDataMarshaler" e)
          end
      end
  end.

Definition Marshal (a : any) : result document := MarshalAt (depth a) a.

Definition codec : JSON := codecOf Marshal.

End Marshal.

End jsondoc.

(** * The logger registry ([logger.go])

    [logger.go] holds two declaration blocks of the same package: lines
    1-205 and lines 207-391.  What they share word for word is modelled
    once in [logger]; [logger.first] and [logger.second] hold what
    differs. *)

(** A call that returns or panics. *)
Inductive outcome (A : Type) : Type :=
  | Returns (a : A)
  | Panics (msg : string).
Arguments Returns {A} a.
Arguments Panics {A} msg.

(** ** zap objects, as the constructor calls that build them

    The encoder configuration, fixed in each declaration block, is left
    out of the encoder terms. *)
Module zapobj.

(** [zapcore.Level]. *)
Inductive Level : Type :=
  | DebugLevel | InfoLevel | WarnLevel | ErrorLevel
  | DPanicLevel | PanicLevel | FatalLevel.

Global Instance Level_eq_dec : EqDecision Level.
Proof. solve_decision. Defined.

(** A [zapcore.WriteSyncer]: nil, [zapcore.AddSync(os.Stdout)], or
    [zapcore.AddSync(&lumberjack.Logger{...})]. *)
Inductive WriteSyncer : Type :=
  | nilWriteSyncer
  | Stdout
  | Lumberjack (Filename : string) (MaxSize MaxBackups MaxAge : Z) (Compress : bool).

(** A [zapcore.Encoder]: nil, [zapcore.NewJSONEncoder(...)],
    [zapcore.NewConsoleEncoder(...)], or
    [&SensitiveDataEncoder{Encoder: ..., Filter: ...}]. *)
Inductive Encoder : Type :=
  | nilEncoder
  | NewJSONEncoder
  | NewConsoleEncoder
  | SensitiveDataEncoderPtr (Encoder : Encoder) (Filter : SensitiveDataFilter).

(** A [zapcore.Core]: nil, [zapcore.NewCore(enc, ws, level)] or
    [zapcore.NewTee(cores...)]. *)
Inductive Core : Type :=
  | nilCore
  | NewCore (enc : Encoder) (ws : WriteSyncer) (enab : Level)
  | NewTee (cores : list Core).

(** A [zap.Option]. *)
Inductive Option : Type :=
  | AddCaller.

(** A [*zap.Logger], built by [zap.New(core, options...)]. *)
Inductive Logger : Type :=
  | New (core : Core) (options : list Option).

(** A call of the [Log] method of a logger. *)
Record LogCall : Type := mkLogCall {
  callLogger : Logger;
  callLevel : Level;
  callMsg : string;
  callFields : list zapcore.Field
}.

End zapobj.

Module logger.

Definition ZapCoreType : Type := string.
Definition Console : ZapCoreType := "console".
Definition File : ZapCoreType := "file".

(** [Config]; [Type_] is its [Type] member. *)
Record Config : Type := mkConfig {
  Type_ : ZapCoreType;
  Name : string;
  Level : string;
  SensitiveFilter : bool;
  SensitiveFields : list string;
  Path : string;
  MaxSize : Z;
  MaxAge : Z;
  MaxBackups : Z;
  Compress : bool
}.

(** The package variables: the global logger [L] (nil at first), the
    [sync.Map] [l] from names to loggers, and whether [once] has run. *)
Record globals : Type := mkGlobals {
  L : option zapobj.Logger;
  l : gmap string zapobj.Logger;
  once : bool
}.

(** The variables when the package is loaded. *)
Definition initial : globals :=
  {| L := None; l := ∅; once := false |}.

(** [l.Store(name, logger)]. *)
Definition Store (name : string) (logger : zapobj.Logger) (st : globals) : globals :=
  {| L := L st; l := <[name := logger]> (l st); once := once st |}.

(** [L = logger]. *)
Definition setL (logger : zapobj.Logger) (st : globals) : globals :=
  {| L := Some logger; l := l st; once := once st |}.

(** [once.Do(f)]: [f] runs if [once] has not run before, and [once]
    counts as run afterwards, also when [f] panics. *)
Definition onceDo (body : globals → outcome unit * globals) (st : globals)
  : outcome unit * globals :=
  if once st then (Returns tt, st)
  else
    let '(r, st') := body st in
    (r, {| L := L st'; l := l st'; once := true |}).

Definition getLoggerLevel (level : string) : outcome zapobj.Level :=
  if decide (level = "debug") then Returns zapobj.DebugLevel
  else if decide (level = "info") then Returns zapobj.InfoLevel
  else if decide (level = "warn") then Returns zapobj.WarnLevel
  else if decide (level = "error") then Returns zapobj.ErrorLevel
  else if decide (level = "panic") then Returns zapobj.PanicLevel
  else if decide (level = "fatal") then Returns zapobj.FatalLevel
  else Panics "invalid log level".

Definition newLogger (core : zapobj.Core) (options : list zapobj.Option)
  : zapobj.Logger :=
  let options := (options ++ [zapobj.AddCaller])%list in
  zapobj.New core options.

(** The loop of [Init] over the configurations, the same in both
    blocks: a panic of [newCore] leaves the loop with what was stored so
    far. *)
Fixpoint initLoop (newCore : Config → outcome zapobj.Core)
    (cfg : list Config) (cores : list zapobj.Core) (st : globals)
  : outcome (list zapobj.Core) * globals :=
  match cfg with
  | [] => (Returns cores, st)
  | c :: cfg' =>
      match newCore c with
      | Panics msg => (Panics msg, st)
      | Returns core =>
          let cores := (cores ++ [core])%list in
          initLoop newCore cfg' cores (Store (Name c) (newLogger core []) st)
      end
  end.

(** [LogTo]: the call it makes on the logger stored under [target], if
    there is one. *)
Definition LogTo (target : string) (lvl : zapobj.Level) (msg : string)
    (fields : list zapcore.Field) (st : globals) : option zapobj.LogCall :=
  match l st !! target with
  | Some v => Some (zapobj.mkLogCall v lvl msg fields)
  | None => None
  end.

Definition DebugTo (target msg : string) (fields : list zapcore.Field)
    (st : globals) : option zapobj.LogCall :=
  LogTo target zapobj.DebugLevel msg fields st.

Definition InfoTo (target msg : string) (fields : list zapcore.Field)
    (st : globals) : option zapobj.LogCall :=
  LogTo target zapobj.InfoLevel msg fields st.

Definition WarnTo (target msg : string) (fields : list zapcore.Field)
    (st : globals) : option zapobj.LogCall :=
  LogTo target zapobj.WarnLevel msg fields st.

Definition ErrorTo (target msg : string) (fields : list zapcore.Field)
    (st : globals) : option zapobj.LogCall :=
  LogTo target zapobj.ErrorLevel msg fields st.

(** *** The first block (lines 1-205) *)
Module first.

Definition defaultLogLevel : zapobj.Level := zapobj.DebugLevel.
Definition defaultLogName : string := "default".

Definition newCore (cfg : Config) : outcome zapobj.Core :=
  let encoder0 := zapobj.nilEncoder in
  match
    (if SensitiveFilter cfg then
       Returns (zapobj.SensitiveDataEncoderPtr encoder0
                  (NewSensitiveDataFilter (SensitiveFields cfg)))
     else if decide (Type_ cfg = File) then Returns zapobj.NewJSONEncoder
     else if decide (Type_ cfg = Console) then Returns zapobj.NewConsoleEncoder
     else Panics ("unknown zap core type: " ++ Type_ cfg))
  with
  | Panics msg => Panics msg
  | Returns encoder =>
      if decide (Type_ cfg = Console) then
        match getLoggerLevel (Level cfg) with
        | Panics msg => Panics msg
        | Returns level =>
            Returns (zapobj.NewCore zapobj.NewConsoleEncoder zapobj.Stdout level)
        end
      else if decide (Type_ cfg = File) then
        match getLoggerLevel (Level cfg) with
        | Panics msg => Panics msg
        | Returns level =>
            Returns (zapobj.NewCore encoder
                       (zapobj.Lumberjack (Path cfg) (MaxSize cfg)
                          (MaxBackups cfg) (MaxAge cfg) (Compress cfg))
                       level)
        end
      else Returns zapobj.nilCore
  end.

Definition Init (cfg : list Config) : globals → outcome unit * globals :=
  onceDo (λ st,
    let defaultLogCore :=
      zapobj.NewCore zapobj.NewConsoleEncoder zapobj.Stdout defaultLogLevel in
    let defaultLog := newLogger defaultLogCore [] in
    let st := Store defaultLogName defaultLog st in
    if decide (0 < length cfg)%nat then
      match initLoop newCore cfg [] st with
      | (Panics msg, st) => (Panics msg, st)
      | (Returns cores, st) =>
          (Returns tt, setL (newLogger (zapobj.NewTee cores) []) st)
      end
    else (Returns tt, setL defaultLog st)).

Definition AddTargetLogger (c : Config) (st : globals) : outcome unit * globals :=
  match newCore c with
  | Panics msg => (Panics msg, st)
  | Returns core => (Returns tt, Store (Name c) (newLogger core []) st)
  end.

Definition GetTargetLogger (target : string) (st : globals)
  : option zapobj.Logger * bool :=
  match l st !! target with
  | Some lg => (Some lg, true)
  | None => (None, false)
  end.

End first.

(** *** The second block (lines 207-391) *)
Module second.

(** The package variable [encoder]. *)
Definition encoder : zapobj.Encoder := zapobj.NewJSONEncoder.

Definition newCore (cfg : Config) : outcome zapobj.Core :=
  let enc :=
    if SensitiveFilter cfg then
      zapobj.SensitiveDataEncoderPtr encoder
        (NewSensitiveDataFilter (SensitiveFields cfg))
    else encoder in
  match
    (if decide (Type_ cfg = Console) then
       match getLoggerLevel (Level cfg) with
       | Panics msg => Panics msg
       | Returns _ => Returns zapobj.Stdout
       end
     else if decide (Type_ cfg = File) then
       Returns (zapobj.Lumberjack (Path cfg) (MaxSize cfg)
                  (MaxBackups cfg) (MaxAge cfg) (Compress cfg))
     else Returns zapobj.nilWriteSyncer)
  with
  | Panics msg => Panics msg
  | Returns w =>
      match getLoggerLevel (Level cfg) with
      | Panics msg => Panics msg
      | Returns level => Returns (zapobj.NewCore enc w level)
      end
  end.

Definition Init (cfg : list Config) : globals → outcome unit * globals :=
  onceDo (λ st,
    let cores := [] in
    match
      (if decide (0 < length cfg)%nat then initLoop newCore cfg cores st
       else
         (Returns (cores ++ [zapobj.NewCore encoder zapobj.Stdout zapobj.DebugLevel])%list,
          st))
    with
    | (Panics msg, st) => (Panics msg, st)
    | (Returns cores, st) =>
        (Returns tt, setL (newLogger (zapobj.NewTee cores) []) st)
    end).

Definition AddTagetLogger (c : Config) (st : globals) : outcome unit * globals :=
  match newCore c with
  | Panics msg => (Panics msg, st)
  | Returns core => (Returns tt, Store (Name c) (newLogger core []) st)
  end.

End second.

End logger.

(** * Notions the properties are stated with *)

(** The number of nodes of a nested value. *)
Fixpoint valueSize (v : value) : nat :=
  match v with
  | VMap (Some m) => S (map_fold (λ _ item acc, valueSize item + acc) 0 m)
  | VSlice (Some l) => S (foldr (λ item acc, valueSize item + acc) 0 l)
  | _ => 1
  end.

(** What the map loop of [MaskSensitiveData] stores under [key]. *)
Definition maskMember (Mask : string) (f : SensitiveDataFilter)
    (key : string) (item : value) : value :=
  if IsSensitiveField f key then VString Mask else maskValue Mask f item.

(** Whether some key of a map, at any nesting depth below [v], names a
    sensitive field. *)
Fixpoint hasSensitiveKey (f : SensitiveDataFilter) (v : value) : bool :=
  match v with
  | VMap (Some m) =>
      map_fold (λ key item acc,
                  IsSensitiveField f key || hasSensitiveKey f item || acc)
               false m
  | VSlice (Some l) =>
      foldr (λ item acc, hasSensitiveKey f item || acc) false l
  | _ => false
  end.

(** A position inside a nested value: a sequence of map keys and slice
    indices. *)
Inductive step : Type :=
  | AtKey (key : string)
  | AtIndex (i : nat).

Fixpoint lookupPath (p : list step) (v : value) : option value :=
  match p with
  | [] => Some v
  | AtKey key :: p' =>
      match v with
      | VMap (Some m) =>
          match m !! key with
          | Some item => lookupPath p' item
          | None => None
          end
      | _ => None
      end
  | AtIndex i :: p' =>
      match v with
      | VSlice (Some l) =>
          match l !! i with
          | Some item => lookupPath p' item
          | None => None
          end
      | _ => None
      end
  end.

(** No key on the path names a sensitive field. *)
Definition pathClear (f : SensitiveDataFilter) (p : list step) : bool :=
  forallb (λ s, match s with
                | AtKey key => negb (IsSensitiveField f key)
                | AtIndex _ => true
                end) p.

(** The classification [EncodeEntry] applies to a field it does not mask
    by name. *)
Definition isComplexType (t : zapcore.FieldType) : bool :=
  bool_decide (t = zapcore.ReflectType)
  || bool_decide (t = zapcore.ObjectMarshalerType).

(** What the field loop of [EncodeEntry] appends for [field]. *)
Definition redactField (Mask : string) (filter : SensitiveDataFilter)
    (field : zapcore.Field) : zapcore.Field :=
  if IsSensitiveField filter (zapcore.Key field) then
    zap.String (zapcore.Key field) Mask
  else if isComplexType (zapcore.Type_ field) && notNil (zapcore.Interface field) then
    zap.Any (zapcore.Key field) (mkMarshaler (zapcore.Interface field) (Some filter))
  else field.

(** An encoder that hands back the field sequence it is called with. *)
Definition recorder : zapcore.Encoder unit (list zapcore.Field) :=
  zapcore.mkEncoder (λ _ fields, Ok fields).

(** The field sequence [EncodeEntry] passes to the underlying encoder,
    read off a [recorder]. *)
Definition forwarded (Mask : string) (filter : option SensitiveDataFilter)
    (fields : list zapcore.Field) : list zapcore.Field :=
  match EncodeEntry Mask (mkSensitiveDataEncoder recorder filter) tt fields with
  | Ok out => out
  | Err _ => []
  end.

(** Canonicalization as the specification words it: the object or array
    form of the wrapped value that the wrapper goes on to mask.  A map
    or slice is its own form; any other value is serialized and read
    back, as an object first and as an array second; [None] when it can
    be neither serialized nor read back. *)
Definition canonicalForm `{codec : JSON} (m : SensitiveDataMarshaler) : option value :=
  match Data m with
  | AValue (VMap data) => Some (VMap data)
  | AValue (VSlice slice) => Some (VSlice slice)
  | data =>
      match json_Marshal data with
      | Err _ => None
      | Ok jsonData =>
          match json_Unmarshal_map jsonData with
          | Ok dataMap => Some (VMap dataMap)
          | Err _ =>
              match json_Unmarshal_slice jsonData with
              | Ok dataArray => Some (VSlice dataArray)
              | Err _ => None
              end
          end
      end
  end.

(** Whether a document is a string, a number or a boolean. *)
Definition isScalarDocument (d : document) : bool :=
  match d with
  | JBool _ | JNumber _ | JString _ => true
  | _ => false
  end.

(** What a call of [EncodeEntry] on an encoder term does, given the
    JSON and the console encoder of zap and the mask token current at
    the call; [None] for a term on which every such call ends in a call
    on the nil encoder. *)
Fixpoint runEncoder {Entry Buffer : Type}
    (json console : zapcore.Encoder Entry Buffer) (e : zapobj.Encoder)
  : option (string → Entry → list zapcore.Field → result Buffer) :=
  match e with
  | zapobj.nilEncoder => None
  | zapobj.NewJSONEncoder => Some (λ _, zapcore.EncodeEntry json)
  | zapobj.NewConsoleEncoder => Some (λ _, zapcore.EncodeEntry console)
  | zapobj.SensitiveDataEncoderPtr inner filter =>
      match runEncoder json console inner with
      | Some run =>
          Some (λ Mask,
                  EncodeEntry Mask
                    (mkSensitiveDataEncoder (zapcore.mkEncoder (run Mask))
                                            (Some filter)))
      | None => None
      end
  end.

(** The names [getLoggerLevel] accepts, with their levels. *)
Definition levelNames : list (string * zapobj.Level) :=
  [("debug", zapobj.DebugLevel); ("info", zapobj.InfoLevel);
   ("warn", zapobj.WarnLevel); ("error", zapobj.ErrorLevel);
   ("panic", zapobj.PanicLevel); ("fatal", zapobj.FatalLevel)].

(** The logger stored for a configuration, when its core can be built. *)
Definition loggerOf (newCore : logger.Config → outcome zapobj.Core)
    (c : logger.Config) : option zapobj.Logger :=
  match newCore c with
  | Returns core => Some (logger.newLogger core [])
  | Panics _ => None
  end.

(** The cores of a list of configurations, when all can be built. *)
Fixpoint coresOf (newCore : logger.Config → outcome zapobj.Core)
    (cfg : list logger.Config) : option (list zapobj.Core) :=
  match cfg with
  | [] => Some []
  | c :: cfg' =>
      match newCore c, coresOf newCore cfg' with
      | Returns core, Some cores => Some (core :: cores)
      | _, _ => None
      end
  end.

(** The last configuration of a list that carries a given name. *)
Definition lastNamed (name : string) (cfg : list logger.Config)
  : option logger.Config :=
  last (filter (λ c, logger.Name c = name) cfg).

(** What is found under a name after the configurations of a list were
    stored one after the other on top of a registry. *)
Definition registered (newCore : logger.Config → outcome zapobj.Core)
    (cfg : list logger.Config) (before : gmap string zapobj.Logger)
    (name : string) : option zapobj.Logger :=
  match lastNamed name cfg with
  | Some c => loggerOf newCore c
  | None => before !! name
  end.

(** The default logger of the first block. *)
Definition defaultLog : zapobj.Logger :=
  logger.newLogger
    (zapobj.NewCore zapobj.NewConsoleEncoder zapobj.Stdout
       logger.first.defaultLogLevel) [].

(** Sample data: a filter for [password] and [token], and a struct
    [Account{Password, Balance}] whose balance is a [json.Number]. *)
Definition credentialFilter : SensitiveDataFilter :=
  NewSensitiveDataFilter ["password"; "token"].

Definition account (balance : number) : value :=
  VOther {| typeName := "Account";
            rendering := Some (JObject [("password", JString "hunter2");
                                        ("balance", JNumber balance)]) |}.

(** Sample configurations: a console and a file target with the
    sensitive filter switched on, and a target whose level name is not
    accepted. *)
Definition consoleConfig : logger.Config :=
  {| logger.Type_ := logger.Console; logger.Name := "console";
     logger.Level := "info"; logger.SensitiveFilter := true;
     logger.SensitiveFields := ["password"; "token"];
     logger.Path := ""; logger.MaxSize := 0; logger.MaxAge := 0;
     logger.MaxBackups := 0; logger.Compress := false |}.

Definition fileConfig : logger.Config :=
  {| logger.Type_ := logger.File; logger.Name := "file";
     logger.Level := "debug"; logger.SensitiveFilter := true;
     logger.SensitiveFields := ["password"; "token"];
     logger.Path := "./logs/app.log"; logger.MaxSize := 100;
     logger.MaxAge := 7; logger.MaxBackups := 5; logger.Compress := true |}.

Definition auditConfig : logger.Config :=
  {| logger.Type_ := logger.Console; logger.Name := "audit";
     logger.Level := "INFO"; logger.SensitiveFilter := false;
     logger.SensitiveFields := [];
     logger.Path := ""; logger.MaxSize := 0; logger.MaxAge := 0;
     logger.MaxBackups := 0; logger.Compress := false |}.

(** * Properties *)

Local Open Scope list_scope.

(** ** Case folding *)

Section CaseFolding.

Lemma lowerByte_idemp c : lowerByte (lowerByte c) = lowerByte c.
Proof. destruct c as [[] [] [] [] [] [] [] []]; reflexivity. Qed.

Lemma lowerByte_toggle c : lowerByte (toggleByte c) = lowerByte c.
Proof. destruct c as [[] [] [] [] [] [] [] []]; reflexivity. Qed.

Lemma lowerByte_upper c : lowerByte (upperByte c) = lowerByte c.
Proof. destruct c as [[] [] [] [] [] [] [] []]; reflexivity. Qed.

Lemma byteVariant_lower c d : byteVariant c d = true → lowerByte c = lowerByte d.
Proof.
  unfold byteVariant. intros H.
  apply orb_true_iff in H as [H | H]; [apply orb_true_iff in H as [H | H] |].
  - apply bool_decide_eq_true in H. by subst.
  - apply andb_true_iff in H as [Hu Hd]. apply bool_decide_eq_true in Hd.
    rewrite <- (ascii_nat_embedding d), Hd. clear Hd d.
    revert Hu. destruct c as [[] [] [] [] [] [] [] []]; (reflexivity || discriminate).
  - apply andb_true_iff in H as [Hu Hc]. apply bool_decide_eq_true in Hc.
    rewrite <- (ascii_nat_embedding c), Hc. clear Hc c.
    revert Hu. destruct d as [[] [] [] [] [] [] [] []]; (reflexivity || discriminate).
Qed.

Lemma ToLower_idemp s : ToLower (ToLower s) = ToLower s.
Proof.
  unfold ToLower. induction s as [| c s IH]; simpl; [done |].
  by rewrite lowerByte_idemp, IH.
Qed.

Lemma ToLower_empty s : ToLower s = "" ↔ s = "".
Proof. destruct s; simpl; split; (done || discriminate). Qed.

Lemma ToLower_ToggleCase s : ToLower (ToggleCase s) = ToLower s.
Proof.
  unfold ToLower, ToggleCase. induction s as [| c s IH]; simpl; [done |].
  by rewrite lowerByte_toggle, IH.
Qed.

Lemma ToLower_ToUpper s : ToLower (ToUpper s) = ToLower s.
Proof.
  unfold ToLower, ToUpper. induction s as [| c s IH]; simpl; [done |].
  by rewrite lowerByte_upper, IH.
Qed.

Lemma caseVariant_ToLower s t : caseVariant s t = true → ToLower s = ToLower t.
Proof.
  revert t. induction s as [| c s IH]; intros [| d t]; simpl; try done.
  intros H. apply andb_true_iff in H as [Hb Hs].
  unfold ToLower in *. simpl. by rewrite (byteVariant_lower _ _ Hb), (IH _ Hs).
Qed.

Lemma caseVariant_empty s t : caseVariant s t = true → (s = "" ↔ t = "").
Proof. destruct s, t; simpl; intros; split; (done || discriminate). Qed.

(** Lower-casing the probe beforehand, as both callers do, does not
    change the answer. *)
Lemma IsSensitiveField_ToLower f name :
  IsSensitiveField f (ToLower name) = IsSensitiveField f name.
Proof.
  unfold IsSensitiveField.
  destruct (decide (ToLower name = "")) as [He | Hne];
    destruct (decide (name = "")) as [He' | Hne'].
  - done.
  - by apply -> ToLower_empty in He.
  - subst. by destruct Hne.
  - by rewrite ToLower_idemp.
Qed.

(** The stored set after construction: the lower-cased configured
    names. *)
Lemma NewSensitiveDataFilter_lookup fields name :
  sensitiveFields (NewSensitiveDataFilter fields) !! name =
    if bool_decide (name ∈ ToLower <$> fields) then Some true else None.
Proof.
  unfold NewSensitiveDataFilter. simpl.
  assert (∀ (acc : gmap string bool),
    foldl (λ (acc : gmap string bool) field, <[ToLower field := true]> acc)
          acc fields !! name =
    if bool_decide (name ∈ ToLower <$> fields) then Some true
    else acc !! name) as Hgen.
  { induction fields as [| x fields IH]; intros acc; simpl.
    - done.
    - rewrite IH. destruct (decide (name = ToLower x)) as [-> | Hne].
      + rewrite lookup_insert_eq.
        rewrite (bool_decide_eq_true_2 (_ ∈ _ :: _)); [| by left].
        by case_bool_decide.
      + rewrite lookup_insert_ne by done.
        case_bool_decide as H1; case_bool_decide as H2; try done.
        * destruct H2. by right.
        * apply elem_of_cons in H2 as [? | ?]; done. }
  rewrite Hgen. by rewrite lookup_empty.
Qed.

(** Membership after construction, in terms of the configured names. *)
Lemma IsSensitiveField_New fields name :
  IsSensitiveField (NewSensitiveDataFilter fields) name = true ↔
  name ≠ "" ∧ ∃ field, field ∈ fields ∧ ToLower field = ToLower name.
Proof.
  unfold IsSensitiveField. rewrite NewSensitiveDataFilter_lookup.
  destruct (decide (name = "")) as [-> | Hne].
  { split; [discriminate | by intros [? _]]. }
  case_bool_decide as Hin; simpl.
  - split; [intros _ | done]. split; [done |].
    apply list_elem_of_fmap in Hin as (field & Heq & Hfield). eauto.
  - split; [done |]. intros [_ (field & Hfield & Heq)].
    destruct Hin. apply list_elem_of_fmap. eauto.
Qed.

Lemma IsSensitiveField_caseVariant f name name' :
  caseVariant name name' = true →
  IsSensitiveField f name = IsSensitiveField f name'.
Proof.
  intros Hv. unfold IsSensitiveField.
  pose proof (caseVariant_empty _ _ Hv) as He.
  rewrite (caseVariant_ToLower _ _ Hv).
  destruct (decide (name = "")) as [H | H]; destruct (decide (name' = "")) as [H' | H'];
    try done.
  - by apply He in H.
  - by apply He in H'.
Qed.

Lemma caseVariant_ToggleCase s : caseVariant s (ToggleCase s) = true.
Proof.
  unfold ToggleCase. induction s as [| c s IH]; simpl; [done |].
  rewrite IH, andb_true_r. clear.
  destruct c as [[] [] [] [] [] [] [] []]; reflexivity.
Qed.

(** The form the specification tests: toggling the case of every
    letter of the probe. *)
Lemma IsSensitiveField_ToggleCase f name :
  IsSensitiveField f (ToggleCase name) = IsSensitiveField f name.
Proof.
  symmetry. apply IsSensitiveField_caseVariant, caseVariant_ToggleCase.
Qed.

End CaseFolding.

(** ** Induction on nested values *)

Section ValueInduction.

Lemma valueSize_lookup (m : gmap string value) key item :
  m !! key = Some item → valueSize item < valueSize (VMap (Some m)).
Proof.
  intros Hkey. simpl.
  rewrite <- (insert_delete_id m key item Hkey).
  rewrite map_fold_insert_L.
  - lia.
  - intros. lia.
  - apply lookup_delete_eq.
Qed.

Lemma valueSize_elem (l : list value) item :
  item ∈ l → valueSize item < valueSize (VSlice (Some l)).
Proof.
  simpl. induction 1 as [item l | item other l _ IH]; simpl; lia.
Qed.

(** The induction principle a nested value calls for: the members of a
    map and the elements of a slice satisfy the property already. *)
Lemma value_nested_ind (P : value → Prop) :
  P VNil →
  (∀ b, P (VBool b)) →
  (∀ n, P (VNumber n)) →
  (∀ s, P (VString s)) →
  P (VMap None) →
  (∀ m, map_Forall (λ _ item, P item) m → P (VMap (Some m))) →
  P (VSlice None) →
  (∀ l, Forall P l → P (VSlice (Some l))) →
  (∀ o, P (VOther o)) →
  ∀ v, P v.
Proof.
  intros Hnil Hbool Hnum Hstr Hmnil Hmap Hsnil Hslice Hother v.
  remember (valueSize v) as n eqn:Hn.
  revert v Hn. induction n as [n IH] using lt_wf_ind. intros v ->.
  destruct v as [| b | num | s | [m |] | [l |] | o]; auto.
  - apply Hmap. intros key item Hkey.
    apply (IH (valueSize item)); [by eapply valueSize_lookup | done].
  - apply Hslice. apply Forall_forall. intros item Hitem.
    apply (IH (valueSize item)); [by apply valueSize_elem | done].
Qed.

End ValueInduction.

(** ** The value masker *)

Section MaskerFacts.

Variable Mask : string.
Variable f : SensitiveDataFilter.

(** The recursion unfolds into the type switch of the source. *)
Lemma maskValue_unfold v :
  maskValue Mask f v =
    match v with
    | VMap data => VMap (MaskSensitiveData Mask f data)
    | VSlice slice => VSlice (maskSliceData Mask f slice)
    | _ => v
    end.
Proof. by destruct v. Qed.

Lemma MaskSensitiveData_Some data :
  MaskSensitiveData Mask f (Some data) =
    Some (map_imap (λ key item, Some (maskMember Mask f key item)) data).
Proof.
  unfold MaskSensitiveData, maskMember. f_equal.
  apply map_eq. intros key. rewrite !map_lookup_imap.
  destruct (data !! key) as [item |]; simpl; [| done].
  rewrite IsSensitiveField_ToLower. by destruct (IsSensitiveField f key).
Qed.

Lemma MaskSensitiveData_lookup data masked key :
  MaskSensitiveData Mask f (Some data) = Some masked →
  masked !! key = maskMember Mask f key <$> data !! key.
Proof.
  rewrite MaskSensitiveData_Some. intros [= <-].
  rewrite map_lookup_imap. by destruct (data !! key).
Qed.

Lemma MaskSensitiveData_dom data masked :
  MaskSensitiveData Mask f (Some data) = Some masked → dom masked = dom data.
Proof.
  intros Hm. apply set_eq. intros key.
  rewrite !elem_of_dom, (MaskSensitiveData_lookup _ _ _ Hm).
  by rewrite fmap_is_Some.
Qed.

Lemma maskSliceData_lookup slice masked (i : nat) :
  maskSliceData Mask f (Some slice) = Some masked →
  masked !! i = maskValue Mask f <$> slice !! i.
Proof. intros [= <-]. apply list_lookup_fmap. Qed.

Lemma maskValue_idemp v :
  maskValue Mask f (maskValue Mask f v) = maskValue Mask f v.
Proof.
  induction v as [| | | | | m IH | | l IH |] using value_nested_ind; try done.
  - rewrite (maskValue_unfold (VMap (Some m))), MaskSensitiveData_Some.
    rewrite maskValue_unfold, MaskSensitiveData_Some. do 2 f_equal.
    apply map_eq. intros key. rewrite !map_lookup_imap.
    destruct (m !! key) as [item |] eqn:Hkey; simpl; [| done].
    unfold maskMember. destruct (IsSensitiveField f key); [done |].
    f_equal. by apply (IH key).
  - simpl. do 2 f_equal.
    induction IH as [| item l Hitem _ IHl]; simpl; [done |].
    by rewrite Hitem, IHl.
Qed.

Lemma hasSensitiveKey_map (m : gmap string value) :
  hasSensitiveKey f (VMap (Some m)) = false ↔
  map_Forall (λ key item,
                IsSensitiveField f key = false ∧ hasSensitiveKey f item = false) m.
Proof.
  simpl.
  apply (map_fold_weak_ind (λ r m,
    r = false ↔
    map_Forall (λ key item,
      IsSensitiveField f key = false ∧ hasSensitiveKey f item = false) m)).
  - split; [intros _; apply map_Forall_empty | done].
  - intros key item m' r Hfresh IH.
    rewrite map_Forall_insert by done. rewrite <- IH.
    rewrite !orb_false_iff. tauto.
Qed.

Lemma hasSensitiveKey_slice (l : list value) :
  hasSensitiveKey f (VSlice (Some l)) = false ↔
  Forall (λ item, hasSensitiveKey f item = false) l.
Proof.
  simpl. induction l as [| item l IH]; simpl.
  - split; [constructor | done].
  - rewrite orb_false_iff, IH, Forall_cons. tauto.
Qed.

(** A value without sensitive keys is returned as it is. *)
Lemma maskValue_clean v :
  hasSensitiveKey f v = false → maskValue Mask f v = v.
Proof.
  induction v as [| | | | | m IH | | l IH |] using value_nested_ind; try done.
  - intros Hclean. apply hasSensitiveKey_map in Hclean.
    rewrite maskValue_unfold, MaskSensitiveData_Some. do 2 f_equal.
    apply map_eq. intros key. rewrite map_lookup_imap.
    destruct (m !! key) as [item |] eqn:Hkey; simpl; [| done].
    destruct (Hclean key item Hkey) as [Hk Hitem].
    unfold maskMember. rewrite Hk. f_equal. by apply (IH key).
  - intros Hclean. apply hasSensitiveKey_slice in Hclean.
    simpl. do 2 f_equal.
    induction IH as [| item l Hitem _ IHl]; simpl; [done |].
    apply Forall_cons in Hclean as [Hc Hcl].
    by rewrite Hitem, IHl.
Qed.

(** Masking commutes with descending along a path that crosses no
    sensitive key. *)
Lemma lookupPath_maskValue p v :
  pathClear f p = true →
  lookupPath p (maskValue Mask f v) = maskValue Mask f <$> lookupPath p v.
Proof.
  revert v. induction p as [| [key | i] p IH]; intros v Hclear; [done | |].
  - simpl in Hclear. apply andb_true_iff in Hclear as [Hkey Hp].
    apply negb_true_iff in Hkey.
    destruct v as [| | | | [m |] | [l |] |]; try done.
    rewrite maskValue_unfold, MaskSensitiveData_Some. simpl.
    rewrite map_lookup_imap.
    destruct (m !! key) as [item |]; simpl; [| done].
    unfold maskMember. rewrite Hkey. by apply IH.
  - simpl in Hclear.
    destruct v as [| | | | [m |] | [l |] |]; try done.
    simpl. rewrite list_lookup_fmap.
    destruct (l !! i) as [item |]; simpl; [| done].
    by apply IH.
Qed.

Lemma lookupPath_app p q v :
  lookupPath (p ++ q) v =
    match lookupPath p v with
    | Some item => lookupPath q item
    | None => None
    end.
Proof.
  revert v. induction p as [| [key | i] p IH]; intros v; [done | |]; simpl.
  - destruct v as [| | | | [m |] | [l |] |]; try done.
    destruct (m !! key); [apply IH | done].
  - destruct v as [| | | | [m |] | [l |] |]; try done.
    destruct (l !! i); [apply IH | done].
Qed.

End MaskerFacts.

(** ** The redacting encoder *)

Section EncoderFacts.

Variable Mask : string.

(** The loop of [EncodeEntry] appends one field per input field. *)
Lemma EncodeEntry_loop filter (fields acc : list zapcore.Field) :
  foldl (λ (filteredFields : list zapcore.Field) field,
           let lowerKey := ToLower (zapcore.Key field) in
           if IsSensitiveField filter lowerKey then
             filteredFields ++ [zap.String (zapcore.Key field) Mask]
           else if (bool_decide (zapcore.Type_ field = zapcore.ReflectType)
                    || bool_decide (zapcore.Type_ field = zapcore.ObjectMarshalerType))
                   && notNil (zapcore.Interface field) then
             let marshaler := mkMarshaler (zapcore.Interface field) (Some filter) in
             filteredFields ++ [zap.Any (zapcore.Key field) marshaler]
           else
             filteredFields ++ [field])
        acc fields
  = acc ++ (redactField Mask filter <$> fields).
Proof.
  revert acc. induction fields as [| field fields IH]; intros acc; simpl.
  - by rewrite app_nil_r.
  - rewrite IH. unfold redactField, isComplexType.
    rewrite IsSensitiveField_ToLower.
    destruct (IsSensitiveField filter (zapcore.Key field)).
    + by rewrite <- app_assoc.
    + destruct (_ && _); by rewrite <- app_assoc.
Qed.

Lemma EncodeEntry_map {Entry Buffer} (e : SensitiveDataEncoder Entry Buffer)
    (ent : Entry) (fields : list zapcore.Field) :
  EncodeEntry Mask e ent fields =
    zapcore.EncodeEntry (Encoder e) ent
      match EncoderFilter e with
      | None => fields
      | Some filter => redactField Mask filter <$> fields
      end.
Proof.
  unfold EncodeEntry. destruct (EncoderFilter e) as [filter |]; [| done].
  destruct (decide (length fields = 0)) as [Hlen | Hlen].
  - by destruct fields.
  - by rewrite EncodeEntry_loop.
Qed.

Lemma forwarded_map filter fields :
  forwarded Mask filter fields =
    match filter with
    | None => fields
    | Some filter => redactField Mask filter <$> fields
    end.
Proof. unfold forwarded. by rewrite EncodeEntry_map. Qed.

(** [forwarded] is the sequence every underlying encoder is called
    with. *)
Lemma EncodeEntry_forwarded {Entry Buffer} (e : SensitiveDataEncoder Entry Buffer)
    (ent : Entry) (fields : list zapcore.Field) :
  EncodeEntry Mask e ent fields =
    zapcore.EncodeEntry (Encoder e) ent (forwarded Mask (EncoderFilter e) fields).
Proof. by rewrite EncodeEntry_map, forwarded_map. Qed.

Lemma forwarded_lookup filter fields (i : nat) :
  forwarded Mask (Some filter) fields !! i = redactField Mask filter <$> fields !! i.
Proof. rewrite forwarded_map. apply list_lookup_fmap. Qed.

Lemma redactField_Key filter field :
  zapcore.Key (redactField Mask filter field) = zapcore.Key field.
Proof.
  unfold redactField.
  destruct (IsSensitiveField _ _); [done |]. by destruct (_ && _).
Qed.

Lemma forwarded_keys filter fields :
  zapcore.Key <$> forwarded Mask filter fields = zapcore.Key <$> fields.
Proof.
  rewrite forwarded_map. destruct filter as [filter |]; [| done].
  rewrite <- list_fmap_compose. apply list_fmap_ext.
  intros i field _. apply redactField_Key.
Qed.

End EncoderFacts.

(** ** The deferred wrapper *)

Section WrapperFacts.

Context `{codec : JSON}.
Variable Mask : string.


(** Without one, the wrapper answers with the outcome of serializing the
    wrapped value itself. *)
Lemma MarshalJSON_not_canonical m filter :
  Filter m = Some filter →
  canonicalForm m = None →
  MarshalJSON Mask m =
    match json_Marshal (Data m) with
    | Ok jsonData => Ok jsonData
    | Err err => Err (Errorf "failed to marshal data" err)
    end.
Proof.
  intros Hfilter. unfold MarshalJSON, canonicalForm. rewrite Hfilter.
  destruct (Data m) as [[| b0 | n | s | data | slice | o] | inner]; try done;
    (destruct (json_Marshal _) as [jsonData | err0]; [| done];
     destruct (json_Unmarshal_map jsonData) as [dataMap | ?]; [done |];
     by destruct (json_Unmarshal_slice jsonData) as [dataArray | ?]).
Qed.

End WrapperFacts.

(** ** The model of [encoding/json] *)

Section ModelFacts.

Variable Mask : string.

Lemma MarshalAt_value n v : jsondoc.MarshalAt Mask n (AValue v) = jsondoc.encode v.
Proof. by destruct n. Qed.

(** [MarshalJSON] asks [json.Marshal] for the wrapped value and for plain
    values only. *)
Lemma MarshalJSON_codecOf_ext (g1 g2 : any → result document) m :
  g1 (Data m) = g2 (Data m) →
  (∀ v, g1 (AValue v) = g2 (AValue v)) →
  MarshalJSON Mask (codec := jsondoc.codecOf g1) m =
  MarshalJSON Mask (codec := jsondoc.codecOf g2) m.
Proof.
  intros Hdata Hvalue. unfold MarshalJSON. simpl.
  destruct (Filter m) as [filter |]; [| done].
  rewrite Hdata.
  destruct (Data m) as [v | inner]; [destruct v |]; rewrite ?Hvalue; try done;
    (destruct (g2 _) as [jsonData | err]; [| done];
     destruct (jsondoc.UnmarshalMap jsonData); [by rewrite Hvalue |];
     destruct (jsondoc.UnmarshalSlice jsonData); [by rewrite Hvalue | done]).
Qed.

Lemma MarshalAt_enough (n : nat) a :
  (jsondoc.depth a ≤ n)%nat →
  jsondoc.MarshalAt Mask n a = jsondoc.MarshalAt Mask (jsondoc.depth a) a.
Proof.
  revert a. induction n as [n IH] using lt_wf_ind. intros a Hle.
  destruct a as [v | [d fl]].
  - by rewrite !MarshalAt_value.
  - simpl in Hle. destruct n as [| n]; [lia |]. simpl.
    rewrite (MarshalJSON_codecOf_ext (jsondoc.MarshalAt Mask n)
               (jsondoc.MarshalAt Mask (jsondoc.depth d))); [done | |].
    + simpl. apply IH; lia.
    + intros v. by rewrite !MarshalAt_value.
Qed.

(** [json.Marshal] of the model on a wrapper is the wrapper's own
    [MarshalJSON] run with the model: the depth bound is never hit. *)
Lemma jsondoc_Marshal_marshaler m :
  jsondoc.Marshal Mask (AMarshaler m) =
    match MarshalJSON Mask (codec := jsondoc.codec Mask) m with
    | Ok b => Ok b
    | Err e =>
        Err (Errorf "json: error calling MarshalJSON for type *zaploggerfilter.SensitiveDataMarshaler" e)
    end.
Proof.
  destruct m as [d fl]. unfold jsondoc.Marshal, jsondoc.codec. simpl.
  rewrite (MarshalJSON_codecOf_ext (jsondoc.MarshalAt Mask (jsondoc.depth d))
             (jsondoc.Marshal Mask)); [done | done |].
  intros v. by rewrite MarshalAt_value.
Qed.

(** A serialized form that is a string, a number or a boolean reads back
    neither as an object nor as an array, and is what the wrapper
    returns. *)
Lemma MarshalJSON_scalar_document m filter d :
  Filter m = Some filter →
  jsondoc.Marshal Mask (Data m) = Ok d →
  isScalarDocument d = true →
  canonicalForm (codec := jsondoc.codec Mask) m = None ∧
  MarshalJSON Mask (codec := jsondoc.codec Mask) m = Ok d.
Proof.
  intros Hfilter Hdata Hscalar.
  assert (canonicalForm (codec := jsondoc.codec Mask) m = None) as Hform.
  { unfold canonicalForm.
    change (@json_Marshal (jsondoc.codec Mask)) with (jsondoc.Marshal Mask).
    destruct (Data m) as [v | inner];
      [destruct v as [| | | | [data |] | [l |] |] |];
      try (rewrite Hdata; by destruct d);
      exfalso; unfold jsondoc.Marshal in Hdata; simpl in Hdata;
      try destruct (jsondoc.collect _); simpl in Hdata; by simplify_eq. }
  split; [done |].
  rewrite (MarshalJSON_not_canonical Mask m filter Hfilter Hform).
  change (@json_Marshal (jsondoc.codec Mask)) with (jsondoc.Marshal Mask).
  by rewrite Hdata.
Qed.

End ModelFacts.

(** * The claims of the specification *)

(** ** The sensitive field set *)



(** ** The value masker *)

(** C3. In an object, the value under a key that names a sensitive field
    is replaced as a whole by the mask token as a string, whatever that
    value is: a nested object under such a key is not masked member by
    member but dropped for the token. *)
Theorem MaskSensitiveData_masks_matching_key
    (Mask : string) (f : SensitiveDataFilter)
    (data : gmap string value) (key : string) (item : value) :
  data !! key = Some item →
  IsSensitiveField f key = true →
  ∃ masked,
    MaskSensitiveData Mask f (Some data) = Some masked ∧
    masked !! key = Some (VString Mask).
Proof.
  intros Hkey Hsens. rewrite MaskSensitiveData_Some. eexists. split; [done |].
  rewrite map_lookup_imap, Hkey. simpl. unfold maskMember. by rewrite Hsens.
Qed.

Lemma MaskSensitiveData_masks_matching_key_witness :
  ∃ masked,
    MaskSensitiveData "***" (NewSensitiveDataFilter ["secret"])
      (Some {[ "secret" := VMap (Some {[ "a" := VNumber (mkNumber 1 0) ]});
               "id" := VNumber (mkNumber 7 0) ]}) = Some masked ∧
    masked !! "secret" = Some (VString "***").
Proof.
  apply (MaskSensitiveData_masks_matching_key "***"
           (NewSensitiveDataFilter ["secret"]) _ "secret"
           (VMap (Some {[ "a" := VNumber (mkNumber 1 0) ]}))); reflexivity.
Defined.

(** The same at any depth: below a path that crosses no sensitive key, a
    member whose key is sensitive reads as the mask token after
    masking. *)
Lemma maskValue_masks_nested_key Mask f (p : list step) key v item :
  pathClear f p = true →
  lookupPath (p ++ [AtKey key]) v = Some item →
  IsSensitiveField f key = true →
  lookupPath (p ++ [AtKey key]) (maskValue Mask f v) = Some (VString Mask).
Proof.
  intros Hclear Hitem Hsens. rewrite lookupPath_app in *.
  rewrite lookupPath_maskValue by done.
  destruct (lookupPath p v) as [parent |]; [| done]. simpl in *.
  destruct parent as [| | | | [m |] | |]; try done.
  rewrite maskValue_unfold, MaskSensitiveData_Some, map_lookup_imap.
  destruct (m !! key); [| done]. simpl. unfold maskMember. by rewrite Hsens.
Qed.

(** C5. Masking is idempotent: masking the result of masking an object,
    with the same field set and the same mask token, changes nothing. *)
Theorem MaskSensitiveData_idempotent
    (Mask : string) (f : SensitiveDataFilter) (data : option (gmap string value)) :
  MaskSensitiveData Mask f (MaskSensitiveData Mask f data) =
  MaskSensitiveData Mask f data.
Proof.
  pose proof (maskValue_idemp Mask f (VMap data)) as H.
  rewrite !maskValue_unfold in H. by injection H.
Qed.

(** C6. An object in which no key, at any depth, names a sensitive field
    is returned equal to itself: every value and the order of every array
    are as they were. *)
Theorem MaskSensitiveData_clean_unchanged
    (Mask : string) (f : SensitiveDataFilter) (data : option (gmap string value)) :
  hasSensitiveKey f (VMap data) = false →
  MaskSensitiveData Mask f data = data.
Proof.
  intros Hclean. pose proof (maskValue_clean Mask f (VMap data) Hclean) as H.
  rewrite maskValue_unfold in H. by injection H.
Qed.

Lemma MaskSensitiveData_clean_unchanged_witness :
  MaskSensitiveData "***" (NewSensitiveDataFilter ["password"; "token"])
    (Some {[ "name" := VString "John";
             "tags" := VSlice (Some [VString "b"; VString "a";
                                     VMap (Some {[ "city" := VString "Oslo" ]})]) ]})
  = Some {[ "name" := VString "John";
            "tags" := VSlice (Some [VString "b"; VString "a";
                                    VMap (Some {[ "city" := VString "Oslo" ]})]) ]}.
Proof.
  apply (MaskSensitiveData_clean_unchanged "***"
           (NewSensitiveDataFilter ["password"; "token"])).
  reflexivity.
Defined.

(** C8. Masking an array yields an array of the same length whose element
    at each index is the masked element of that index: a nested object or
    array is masked in turn, any other element is kept, and no element is
    replaced by name.  Masking [[{"password":"p1"}, {"password":"p2"}]]
    for the sensitive field [password] yields
    [[{"password":"***"}, {"password":"***"}]]. *)
Theorem maskSliceData_elementwise :
  (∀ (Mask : string) (f : SensitiveDataFilter) (slice : list value),
     ∃ masked,
       maskSliceData Mask f (Some slice) = Some masked ∧
       length masked = length slice ∧
       ∀ (i : nat) item, slice !! i = Some item →
         masked !! i =
           Some match item with
                | VMap data => VMap (MaskSensitiveData Mask f data)
                | VSlice nested => VSlice (maskSliceData Mask f nested)
                | _ => item
                end) ∧
  maskSliceData "***" (NewSensitiveDataFilter ["password"])
    (Some [VMap (Some {[ "password" := VString "p1" ]});
           VMap (Some {[ "password" := VString "p2" ]})])
  = Some [VMap (Some {[ "password" := VString "***" ]});
          VMap (Some {[ "password" := VString "***" ]})].
Proof.
  split; [| reflexivity].
  intros Mask f slice. eexists. split; [done |]. split.
  - apply length_map.
  - intros i item Hi. rewrite list_lookup_fmap, Hi. simpl.
    by rewrite maskValue_unfold.
Qed.

(** C9. Masking the nil object gives the nil object, masking the nil array
    the nil array, and masking the empty object the empty object; and a
    nil or empty object or array nested anywhere below keys that are not
    sensitive is found, as it was, at the same place of the result. *)
Theorem masking_preserves_nil_and_empty (Mask : string) (f : SensitiveDataFilter) :
  MaskSensitiveData Mask f None = None ∧
  maskSliceData Mask f None = None ∧
  MaskSensitiveData Mask f (Some ∅) = Some ∅ ∧
  (∀ (p : list step) (v item : value),
     pathClear f p = true →
     lookupPath p v = Some item →
     item = VMap None ∨ item = VSlice None ∨
       item = VMap (Some ∅) ∨ item = VSlice (Some []) →
     lookupPath p (maskValue Mask f v) = Some item) ∧
  (∀ data, maskValue Mask f (VMap data) = VMap (MaskSensitiveData Mask f data)) ∧
  (∀ slice, maskValue Mask f (VSlice slice) = VSlice (maskSliceData Mask f slice)).
Proof.
  repeat split; try done.
  intros p v item Hclear Hitem Hkind.
  rewrite lookupPath_maskValue, Hitem by done. simpl. f_equal.
  destruct Hkind as [-> | [-> | [-> | ->]]]; done.
Qed.

(** ** The redacting encoder *)

(** C1. Stated for every complex-typed field, the claim fails on a field
    whose own name is sensitive: the encoder hands the underlying encoder
    a string field with the mask token, not a wrapper around the map. *)
Lemma EncodeEntry_sensitive_complex_field_not_wrapped :
  let field :=
    zapcore.mkField "password" zapcore.ReflectType 0 ""
      (AValue (VMap (Some {[ "a" := VNumber (mkNumber 1 0) ]}))) in
  let filter := NewSensitiveDataFilter ["password"] in
  isComplexType (zapcore.Type_ field) = true ∧
  EncodeEntry "***" (mkSensitiveDataEncoder recorder (Some filter)) tt [field]
    = Ok [zap.String "password" "***"] ∧
  zap.String "password" "***"
    ≠ zap.Any "password" (mkMarshaler (zapcore.Interface field) (Some filter)).
Proof. repeat split. discriminate. Qed.

(** C1, amended.  With a filter configured, a field of type [ReflectType]
    or [ObjectMarshalerType] whose payload is not nil is replaced, in
    place: by a field of the same name holding a wrapper around the
    original payload when its name is not sensitive, and by a string
    field of the same name holding the mask token when its name is
    sensitive. *)
Theorem EncodeEntry_wraps_complex_field {Entry Buffer : Type}
    (Mask : string) (e : SensitiveDataEncoder Entry Buffer)
    (filter : SensitiveDataFilter) (ent : Entry)
    (fields : list zapcore.Field) (i : nat) (field : zapcore.Field) :
  EncoderFilter e = Some filter →
  fields !! i = Some field →
  isComplexType (zapcore.Type_ field) = true →
  notNil (zapcore.Interface field) = true →
  EncodeEntry Mask e ent fields =
    zapcore.EncodeEntry (Encoder e) ent (forwarded Mask (Some filter) fields) ∧
  forwarded Mask (Some filter) fields !! i =
    Some (if IsSensitiveField filter (zapcore.Key field)
          then zap.String (zapcore.Key field) Mask
          else zap.Any (zapcore.Key field)
                 (mkMarshaler (zapcore.Interface field) (Some filter))).
Proof.
  intros Hfilter Hi Htype Hnil. split.
  - by rewrite EncodeEntry_forwarded, Hfilter.
  - rewrite forwarded_lookup, Hi. simpl. unfold redactField.
    by rewrite Htype, Hnil.
Qed.

Lemma EncodeEntry_wraps_complex_field_witness :
  let user := zapcore.mkField "user" zapcore.ReflectType 0 ""
                (AValue (VMap (Some {[ "password" := VString "p1" ]}))) in
  let filter := NewSensitiveDataFilter ["password"] in
  let e := mkSensitiveDataEncoder recorder (Some filter) in
  EncodeEntry "***" e tt [zap.String "msg" "hi"; user] =
    zapcore.EncodeEntry (Encoder e) tt
      (forwarded "***" (Some filter) [zap.String "msg" "hi"; user]) ∧
  forwarded "***" (Some filter) [zap.String "msg" "hi"; user] !! 1 =
    Some (if IsSensitiveField filter (zapcore.Key user)
          then zap.String (zapcore.Key user) "***"
          else zap.Any (zapcore.Key user)
                 (mkMarshaler (zapcore.Interface user) (Some filter))).
Proof.
  intros user filter e.
  apply (EncodeEntry_wraps_complex_field "***" e filter tt
           [zap.String "msg" "hi"; user] 1 user); reflexivity.
Defined.

(** C10. With a filter configured, a field of type [ReflectType] or
    [ObjectMarshalerType] whose payload is the nil interface and whose
    name is not sensitive reaches the underlying encoder as it is, at
    its place, with no wrapper attached. *)
Theorem EncodeEntry_nil_complex_field_unchanged {Entry Buffer : Type}
    (Mask : string) (e : SensitiveDataEncoder Entry Buffer)
    (filter : SensitiveDataFilter) (ent : Entry)
    (fields : list zapcore.Field) (i : nat) (field : zapcore.Field) :
  EncoderFilter e = Some filter →
  fields !! i = Some field →
  isComplexType (zapcore.Type_ field) = true →
  zapcore.Interface field = AValue VNil →
  IsSensitiveField filter (zapcore.Key field) = false →
  EncodeEntry Mask e ent fields =
    zapcore.EncodeEntry (Encoder e) ent (forwarded Mask (Some filter) fields) ∧
  forwarded Mask (Some filter) fields !! i = Some field.
Proof.
  intros Hfilter Hi Htype Hnil Hname. split.
  - by rewrite EncodeEntry_forwarded, Hfilter.
  - rewrite forwarded_lookup, Hi. simpl. unfold redactField.
    by rewrite Hname, Htype, Hnil.
Qed.

Lemma EncodeEntry_nil_complex_field_unchanged_witness :
  let user := zapcore.mkField "user" zapcore.ObjectMarshalerType 0 "" (AValue VNil) in
  let filter := NewSensitiveDataFilter ["password"] in
  let e := mkSensitiveDataEncoder recorder (Some filter) in
  EncodeEntry "***" e tt [user; zap.String "password" "p1"] =
    zapcore.EncodeEntry (Encoder e) tt
      (forwarded "***" (Some filter) [user; zap.String "password" "p1"]) ∧
  forwarded "***" (Some filter) [user; zap.String "password" "p1"] !! 0 = Some user.
Proof.
  intros user filter e.
  apply (EncodeEntry_nil_complex_field_unchanged "***" e filter tt
           [user; zap.String "password" "p1"] 0 user); reflexivity.
Defined.

(** C7. Masking and encoding substitute values and nothing else: a masked
    object has exactly the keys of the object it comes from, a masked
    array has the length of the array it comes from and holds at each
    index the masked element of that index, and the field sequence the
    encoder passes on has the length and, in order, the names of the
    sequence it was given. *)
Theorem masking_preserves_structure (Mask : string) :
  (∀ (f : SensitiveDataFilter) (data : gmap string value),
     ∃ masked,
       MaskSensitiveData Mask f (Some data) = Some masked ∧
       dom masked = dom data) ∧
  (∀ (f : SensitiveDataFilter) (slice : list value),
     ∃ masked,
       maskSliceData Mask f (Some slice) = Some masked ∧
       length masked = length slice ∧
       ∀ i : nat, masked !! i = maskValue Mask f <$> slice !! i) ∧
  (∀ (Entry Buffer : Type) (e : SensitiveDataEncoder Entry Buffer)
     (ent : Entry) (fields : list zapcore.Field),
     let out := forwarded Mask (EncoderFilter e) fields in
     EncodeEntry Mask e ent fields = zapcore.EncodeEntry (Encoder e) ent out ∧
     length out = length fields ∧
     zapcore.Key <$> out = zapcore.Key <$> fields).
Proof.
  split; [| split].
  - intros f data. rewrite MaskSensitiveData_Some. eexists. split; [done |].
    eapply MaskSensitiveData_dom. apply MaskSensitiveData_Some.
  - intros f slice. eexists. split; [done |]. split.
    + apply length_map.
    + intros i. apply list_lookup_fmap.
  - intros Entry Buffer e ent fields out. split; [| split].
    + apply EncodeEntry_forwarded.
    + pose proof (forwarded_keys Mask (EncoderFilter e) fields) as Hk.
      apply (f_equal length) in Hk. by rewrite !length_fmap in Hk.
    + apply forwarded_keys.
Qed.

(** ** The deferred wrapper *)




(** ** The scenarios of the specification, run through the wrapper *)

(** The nested scenario: the credentials are masked member by member,
    the rest is kept. *)
Example MarshalJSON_nested_scenario :
  MarshalJSON "***" (codec := jsondoc.codec "***")
    (mkMarshaler
       (AValue (VMap (Some
          {[ "name" := VString "John";
             "credentials" :=
               VMap (Some {[ "password" := VString "secret123";
                             "token" := VString "abc123" ]});
             "address" := VString "123 Main St" ]})))
       (Some credentialFilter))
  = Ok (JObject
          [("address", JString "123 Main St");
           ("credentials",
            JObject [("password", JString "***"); ("token", JString "***")]);
           ("name", JString "John")]).
Proof. reflexivity. Qed.

(** A struct is masked by way of its serialized form. *)
Example MarshalJSON_struct :
  MarshalJSON "***" (codec := jsondoc.codec "***")
    (mkMarshaler (AValue (account (mkNumber 25 0))) (Some credentialFilter))
  = Ok (JObject [("balance", JNumber (mkNumber 25 0));
                 ("password", JString "***")]).
Proof. reflexivity. Qed.

(** The fallback also takes a serialized object that cannot be read
    back: with a balance of [1e999], outside the float64 range, both
    decodings fail and the struct is returned with its password. *)
Example MarshalJSON_struct_not_read_back :
  canonicalForm (codec := jsondoc.codec "***")
    (mkMarshaler (AValue (account (mkNumber 1 999))) (Some credentialFilter))
    = None ∧
  MarshalJSON "***" (codec := jsondoc.codec "***")
    (mkMarshaler (AValue (account (mkNumber 1 999))) (Some credentialFilter))
  = Ok (JObject [("password", JString "hunter2");
                 ("balance", JNumber (mkNumber 1 999))]).
Proof. split; vm_compute; reflexivity. Qed.

(** A wrapper without filter serializes the wrapped value as it is. *)
Example MarshalJSON_without_filter :
  MarshalJSON "***" (codec := jsondoc.codec "***")
    (mkMarshaler (AValue (VMap (Some {[ "password" := VString "p1" ]}))) None)
  = Ok (JObject [("password", JString "p1")]).
Proof. reflexivity. Qed.

(** * Further properties of the code *)

(** ** The sensitive field set *)

Section FilterFacts.

Lemma IsSensitiveField_lookup fields name :
  IsSensitiveField (NewSensitiveDataFilter fields) name =
    bool_decide (name ≠ "" ∧ ToLower name ∈ ToLower <$> fields).
Proof.
  unfold IsSensitiveField. rewrite NewSensitiveDataFilter_lookup.
  destruct (decide (name = "")) as [-> | Hne].
  - symmetry. apply bool_decide_eq_false. by intros [? _].
  - case_bool_decide as Hin; simpl; symmetry.
    + by apply bool_decide_eq_true.
    + apply bool_decide_eq_false. by intros [_ ?].
Qed.

Lemma IsSensitiveField_New_app fields fields' name :
  IsSensitiveField (NewSensitiveDataFilter (fields ++ fields')) name =
    IsSensitiveField (NewSensitiveDataFilter fields) name
    || IsSensitiveField (NewSensitiveDataFilter fields') name.
Proof.
  rewrite !IsSensitiveField_lookup, fmap_app.
  repeat case_bool_decide; simpl; try done;
    rewrite elem_of_app in *; tauto.
Qed.

Lemma NewSensitiveDataFilter_same_names fields fields' :
  (∀ name, name ∈ ToLower <$> fields ↔ name ∈ ToLower <$> fields') →
  NewSensitiveDataFilter fields = NewSensitiveDataFilter fields'.
Proof.
  intros Hsame.
  assert (sensitiveFields (NewSensitiveDataFilter fields) =
          sensitiveFields (NewSensitiveDataFilter fields')) as Hmap.
  { apply map_eq. intros name. rewrite !NewSensitiveDataFilter_lookup.
    by rewrite (bool_decide_ext _ _ (Hsame name)). }
  unfold NewSensitiveDataFilter in *. simpl in Hmap. by rewrite Hmap.
Qed.

End FilterFacts.

(** X1. After construction from a list of names, a name is sensitive
    exactly when it is not empty and some listed name has the same
    lower-case form. *)
Theorem NewSensitiveDataFilter_membership (fields : list string) (name : string) :
  IsSensitiveField (NewSensitiveDataFilter fields) name = true ↔
  name ≠ "" ∧ ∃ field, field ∈ fields ∧ ToLower field = ToLower name.
Proof. apply IsSensitiveField_New. Qed.

(** X2. The empty name is never sensitive, and listing it changes
    nothing: the filter built from a list answers as the filter built
    from the list without its empty names. *)
Theorem NewSensitiveDataFilter_empty_names (fields : list string) (name : string) :
  IsSensitiveField (NewSensitiveDataFilter fields) "" = false ∧
  IsSensitiveField (NewSensitiveDataFilter fields) name =
  IsSensitiveField
    (NewSensitiveDataFilter (filter (λ field, field ≠ "") fields)) name.
Proof.
  split; [done |]. rewrite !IsSensitiveField_lookup.
  apply bool_decide_ext. split; intros [Hne Hin]; (split; [done |]);
    apply list_elem_of_fmap in Hin as (field & Heq & Hfield);
    apply list_elem_of_fmap; exists field; (split; [done |]).
  - apply list_elem_of_filter. split; [| done].
    intros ->. apply Hne. by apply ToLower_empty.
  - by apply list_elem_of_filter in Hfield as [_ ?].
Qed.

(** X3. The filter is determined by the set of lower-case forms of the
    listed names: order, repetition and the case of the listed names do
    not matter. *)
Theorem NewSensitiveDataFilter_order_and_case (fields fields' : list string) :
  (∀ name, name ∈ ToLower <$> fields ↔ name ∈ ToLower <$> fields') →
  NewSensitiveDataFilter fields = NewSensitiveDataFilter fields'.
Proof. apply NewSensitiveDataFilter_same_names. Qed.

Lemma NewSensitiveDataFilter_order_and_case_witness :
  NewSensitiveDataFilter ["Password"; "token"; "PASSWORD"] =
  NewSensitiveDataFilter ["TOKEN"; "password"].
Proof.
  apply (NewSensitiveDataFilter_order_and_case
           ["Password"; "token"; "PASSWORD"] ["TOKEN"; "password"]).
  intros name. simpl. rewrite !elem_of_cons, !elem_of_nil. tauto.
Defined.

(** ** The value masker *)

Section MaskerComposition.



(** Masking again with another token is masking with that token. *)
Lemma maskValue_token Mask Mask' f v :
  maskValue Mask' f (maskValue Mask f v) = maskValue Mask' f v.
Proof.
  induction v as [| | | | | m IH | | sl IH |] using value_nested_ind; try done.
  - rewrite (maskValue_unfold Mask f (VMap (Some m))), MaskSensitiveData_Some.
    rewrite !maskValue_unfold, !MaskSensitiveData_Some. do 2 f_equal.
    apply map_eq. intros key. rewrite !map_lookup_imap.
    destruct (m !! key) as [item |] eqn:Hkey; simpl; [| done].
    unfold maskMember. destruct (IsSensitiveField f key); [done |].
    f_equal. by apply (IH key).
  - simpl. do 2 f_equal.
    induction IH as [| item sl Hitem _ IHl]; simpl; [done |].
    by rewrite Hitem, IHl.
Qed.

(** Masking for one filter and then for another is masking for a filter
    that holds the names of both. *)
Lemma maskValue_filters Mask f1 f2 f12 v :
  (∀ key, IsSensitiveField f12 key =
          IsSensitiveField f1 key || IsSensitiveField f2 key) →
  maskValue Mask f2 (maskValue Mask f1 v) = maskValue Mask f12 v.
Proof.
  intros Hboth.
  induction v as [| | | | | m IH | | sl IH |] using value_nested_ind; try done.
  - rewrite (maskValue_unfold Mask f1 (VMap (Some m))), MaskSensitiveData_Some.
    rewrite !maskValue_unfold, !MaskSensitiveData_Some. do 2 f_equal.
    apply map_eq. intros key. rewrite !map_lookup_imap.
    destruct (m !! key) as [item |] eqn:Hkey; simpl; [| done].
    unfold maskMember. rewrite Hboth.
    destruct (IsSensitiveField f1 key), (IsSensitiveField f2 key); simpl; try done.
    f_equal. by apply (IH key).
  - simpl. do 2 f_equal.
    induction IH as [| item sl Hitem _ IHl]; simpl; [done |].
    by rewrite Hitem, IHl.
Qed.

Lemma MaskSensitiveData_maskValue Mask f data :
  VMap (MaskSensitiveData Mask f data) = maskValue Mask f (VMap data).
Proof. by rewrite maskValue_unfold. Qed.

End MaskerComposition.



(** X5. Masking reaches exactly the members under sensitive keys: at a
    path that crosses no sensitive key, the masked object holds the
    masked form of what the object held there, so that a string, number,
    boolean, nil or value of another type found there is untouched. *)
Theorem MaskSensitiveData_elsewhere_untouched
    (Mask : string) (f : SensitiveDataFilter)
    (data : option (gmap string value)) (p : list step) :
  pathClear f p = true →
  lookupPath p (VMap (MaskSensitiveData Mask f data)) =
    maskValue Mask f <$> lookupPath p (VMap data) ∧
  ∀ item, lookupPath p (VMap data) = Some item →
    (∀ nested, item ≠ VMap nested) → (∀ nested, item ≠ VSlice nested) →
    lookupPath p (VMap (MaskSensitiveData Mask f data)) = Some item.
Proof.
  intros Hclear. rewrite MaskSensitiveData_maskValue.
  rewrite lookupPath_maskValue by done. split; [done |].
  intros item -> Hmap Hslice. simpl. f_equal.
  destruct item as [| | | | m | sl |]; try done.
  - by destruct (Hmap m).
  - by destruct (Hslice sl).
Qed.

Lemma MaskSensitiveData_elsewhere_untouched_witness :
  lookupPath [AtKey "user"; AtKey "name"]
    (VMap (MaskSensitiveData "***" credentialFilter
             (Some {[ "user" := VMap (Some {[ "name" := VString "John";
                                              "password" := VString "p1" ]}) ]})))
  = maskValue "***" credentialFilter <$>
      lookupPath [AtKey "user"; AtKey "name"]
        (VMap (Some {[ "user" := VMap (Some {[ "name" := VString "John";
                                               "password" := VString "p1" ]}) ]})) ∧
  ∀ item,
    lookupPath [AtKey "user"; AtKey "name"]
      (VMap (Some {[ "user" := VMap (Some {[ "name" := VString "John";
                                             "password" := VString "p1" ]}) ]}))
      = Some item →
    (∀ nested, item ≠ VMap nested) → (∀ nested, item ≠ VSlice nested) →
    lookupPath [AtKey "user"; AtKey "name"]
      (VMap (MaskSensitiveData "***" credentialFilter
               (Some {[ "user" := VMap (Some {[ "name" := VString "John";
                                                "password" := VString "p1" ]}) ]})))
      = Some item.
Proof.
  apply (MaskSensitiveData_elsewhere_untouched "***" credentialFilter
           (Some {[ "user" := VMap (Some {[ "name" := VString "John";
                                            "password" := VString "p1" ]}) ]})
           [AtKey "user"; AtKey "name"]).
  reflexivity.
Defined.

(** X6. The mask token of an earlier masking does not stick: masking a
    masked object again with another token gives what masking the
    original object with that token gives. *)
Theorem MaskSensitiveData_new_token
    (Mask Mask' : string) (f : SensitiveDataFilter)
    (data : option (gmap string value)) :
  MaskSensitiveData Mask' f (MaskSensitiveData Mask f data) =
  MaskSensitiveData Mask' f data.
Proof.
  pose proof (maskValue_token Mask Mask' f (VMap data)) as H.
  rewrite !maskValue_unfold in H. by injection H.
Qed.

(** X7. Masking for one list of names and then for another, with the same
    token, is masking once for the two lists joined; so the order of the
    two maskings does not matter. *)
Theorem MaskSensitiveData_two_filters
    (Mask : string) (fields fields' : list string)
    (data : option (gmap string value)) :
  MaskSensitiveData Mask (NewSensitiveDataFilter fields')
    (MaskSensitiveData Mask (NewSensitiveDataFilter fields) data) =
  MaskSensitiveData Mask (NewSensitiveDataFilter (fields ++ fields')) data ∧
  MaskSensitiveData Mask (NewSensitiveDataFilter fields')
    (MaskSensitiveData Mask (NewSensitiveDataFilter fields) data) =
  MaskSensitiveData Mask (NewSensitiveDataFilter fields)
    (MaskSensitiveData Mask (NewSensitiveDataFilter fields') data).
Proof.
  assert (∀ fs fs',
    MaskSensitiveData Mask (NewSensitiveDataFilter fs')
      (MaskSensitiveData Mask (NewSensitiveDataFilter fs) data) =
    MaskSensitiveData Mask (NewSensitiveDataFilter (fs ++ fs')) data) as Hjoin.
  { intros fs fs'.
    pose proof (maskValue_filters Mask (NewSensitiveDataFilter fs)
                  (NewSensitiveDataFilter fs') (NewSensitiveDataFilter (fs ++ fs'))
                  (VMap data) (IsSensitiveField_New_app fs fs')) as H.
    rewrite !maskValue_unfold in H. by injection H. }
  split; [apply Hjoin |]. rewrite !Hjoin. f_equal.
  apply NewSensitiveDataFilter_same_names. intros name.
  rewrite !fmap_app, !elem_of_app. tauto.
Qed.

(** ** The deferred wrapper *)

(** X8. On a map or a slice without sensitive keys the wrapper is
    transparent: it returns what [json.Marshal] returns for the value
    itself, success or failure. *)
Theorem MarshalJSON_clean_value `{codec : JSON}
    (Mask : string) (m : SensitiveDataMarshaler)
    (filter : SensitiveDataFilter) (v : value) :
  Filter m = Some filter →
  Data m = AValue v →
  (∃ data, v = VMap data) ∨ (∃ slice, v = VSlice slice) →
  hasSensitiveKey filter v = false →
  MarshalJSON Mask m = json_Marshal (AValue v).
Proof.
  intros Hfilter Hdata Hshape Hclean.
  pose proof (maskValue_clean Mask filter v Hclean) as Hsame.
  unfold MarshalJSON. rewrite Hfilter, Hdata.
  destruct Hshape as [[data ->] | [slice ->]];
    rewrite maskValue_unfold in Hsame; by rewrite Hsame.
Qed.

Lemma MarshalJSON_clean_value_witness :
  MarshalJSON "***" (codec := jsondoc.codec "***")
    (mkMarshaler (AValue (VSlice (Some [VString "a"; VNil]))) (Some credentialFilter))
  = json_Marshal (JSON := jsondoc.codec "***")
      (AValue (VSlice (Some [VString "a"; VNil]))).
Proof.
  apply (MarshalJSON_clean_value (codec := jsondoc.codec "***") "***"
           (mkMarshaler (AValue (VSlice (Some [VString "a"; VNil])))
                        (Some credentialFilter))
           credentialFilter (VSlice (Some [VString "a"; VNil])));
    [reflexivity | reflexivity | right; by eexists | reflexivity].
Defined.

(** ** The redacting encoder *)

(** X9. With a filter configured, a field whose name is sensitive reaches
    the underlying encoder as a string field of that name holding the
    mask token, whatever its type and payload were. *)
Theorem EncodeEntry_masks_sensitive_field {Entry Buffer : Type}
    (Mask : string) (e : SensitiveDataEncoder Entry Buffer)
    (filter : SensitiveDataFilter) (ent : Entry)
    (fields : list zapcore.Field) (i : nat) (field : zapcore.Field) :
  EncoderFilter e = Some filter →
  fields !! i = Some field →
  IsSensitiveField filter (zapcore.Key field) = true →
  EncodeEntry Mask e ent fields =
    zapcore.EncodeEntry (Encoder e) ent (forwarded Mask (Some filter) fields) ∧
  forwarded Mask (Some filter) fields !! i =
    Some {| zapcore.Key := zapcore.Key field;
            zapcore.Type_ := zapcore.StringType;
            zapcore.Integer := 0;
            zapcore.String_ := Mask;
            zapcore.Interface := AValue VNil |}.
Proof.
  intros Hfilter Hi Hname. split.
  - by rewrite EncodeEntry_forwarded, Hfilter.
  - rewrite forwarded_lookup, Hi. simpl. unfold redactField. by rewrite Hname.
Qed.

Lemma EncodeEntry_masks_sensitive_field_witness :
  EncodeEntry "***" (mkSensitiveDataEncoder recorder (Some credentialFilter)) tt
    [zapcore.mkField "Token" zapcore.Int64Type 42 "" (AValue VNil)] =
    zapcore.EncodeEntry recorder tt
      (forwarded "***" (Some credentialFilter)
         [zapcore.mkField "Token" zapcore.Int64Type 42 "" (AValue VNil)]) ∧
  forwarded "***" (Some credentialFilter)
    [zapcore.mkField "Token" zapcore.Int64Type 42 "" (AValue VNil)] !! 0 =
    Some {| zapcore.Key := "Token";
            zapcore.Type_ := zapcore.StringType;
            zapcore.Integer := 0;
            zapcore.String_ := "***";
            zapcore.Interface := AValue VNil |}.
Proof.
  apply (EncodeEntry_masks_sensitive_field "***"
           (mkSensitiveDataEncoder recorder (Some credentialFilter))
           credentialFilter tt
           [zapcore.mkField "Token" zapcore.Int64Type 42 "" (AValue VNil)] 0
           (zapcore.mkField "Token" zapcore.Int64Type 42 "" (AValue VNil)));
    reflexivity.
Defined.

(** X10. A field whose name is not sensitive and whose type is neither
    [ReflectType] nor [ObjectMarshalerType] reaches the underlying
    encoder as it is, payload included: an array marshaler, for one, is
    passed on without a wrapper. *)
Theorem EncodeEntry_other_field_unchanged {Entry Buffer : Type}
    (Mask : string) (e : SensitiveDataEncoder Entry Buffer)
    (filter : SensitiveDataFilter) (ent : Entry)
    (fields : list zapcore.Field) (i : nat) (field : zapcore.Field) :
  EncoderFilter e = Some filter →
  fields !! i = Some field →
  IsSensitiveField filter (zapcore.Key field) = false →
  isComplexType (zapcore.Type_ field) = false →
  EncodeEntry Mask e ent fields =
    zapcore.EncodeEntry (Encoder e) ent (forwarded Mask (Some filter) fields) ∧
  forwarded Mask (Some filter) fields !! i = Some field.
Proof.
  intros Hfilter Hi Hname Htype. split.
  - by rewrite EncodeEntry_forwarded, Hfilter.
  - rewrite forwarded_lookup, Hi. simpl. unfold redactField.
    by rewrite Hname, Htype.
Qed.

Lemma EncodeEntry_other_field_unchanged_witness :
  EncodeEntry "***" (mkSensitiveDataEncoder recorder (Some credentialFilter)) tt
    [zapcore.mkField "users" zapcore.ArrayMarshalerType 0 ""
       (AValue (VOther (mkOther "Users" None)))] =
    zapcore.EncodeEntry recorder tt
      (forwarded "***" (Some credentialFilter)
         [zapcore.mkField "users" zapcore.ArrayMarshalerType 0 ""
            (AValue (VOther (mkOther "Users" None)))]) ∧
  forwarded "***" (Some credentialFilter)
    [zapcore.mkField "users" zapcore.ArrayMarshalerType 0 ""
       (AValue (VOther (mkOther "Users" None)))] !! 0 =
    Some (zapcore.mkField "users" zapcore.ArrayMarshalerType 0 ""
            (AValue (VOther (mkOther "Users" None)))).
Proof.
  apply (EncodeEntry_other_field_unchanged "***"
           (mkSensitiveDataEncoder recorder (Some credentialFilter))
           credentialFilter tt
           [zapcore.mkField "users" zapcore.ArrayMarshalerType 0 ""
              (AValue (VOther (mkOther "Users" None)))] 0
           (zapcore.mkField "users" zapcore.ArrayMarshalerType 0 ""
              (AValue (VOther (mkOther "Users" None)))));
    reflexivity.
Defined.

(** X11. Encoder and wrapper together: for a field of complex type whose
    name is not sensitive and whose payload is a map, what the
    underlying encoder receives is a wrapper whose serialization is the
    serialization of the masked map, with the mask token current when
    the wrapper is serialized, not the one current at [EncodeEntry]. *)
Theorem EncodeEntry_then_MarshalJSON `{codec : JSON}
    (Mask Mask' : string) (filter : SensitiveDataFilter)
    (fields : list zapcore.Field) (i : nat) (field : zapcore.Field)
    (data : option (gmap string value)) :
  fields !! i = Some field →
  isComplexType (zapcore.Type_ field) = true →
  zapcore.Interface field = AValue (VMap data) →
  IsSensitiveField filter (zapcore.Key field) = false →
  ∃ m,
    zapcore.Interface <$> forwarded Mask (Some filter) fields !! i
      = Some (AMarshaler m) ∧
    MarshalJSON Mask' m =
      json_Marshal (AValue (VMap (MaskSensitiveData Mask' filter data))).
Proof.
  intros Hi Htype Hdata Hname.
  exists (mkMarshaler (AValue (VMap data)) (Some filter)). split; [| done].
  rewrite forwarded_lookup, Hi. simpl. unfold redactField.
  by rewrite Hname, Htype, Hdata.
Qed.

Lemma EncodeEntry_then_MarshalJSON_witness :
  ∃ m,
    zapcore.Interface <$>
      forwarded "***" (Some credentialFilter)
        [zapcore.mkField "user" zapcore.ReflectType 0 ""
           (AValue (VMap (Some {[ "password" := VString "p1" ]})))] !! 0
      = Some (AMarshaler m) ∧
    MarshalJSON "[REDACTED]" (codec := jsondoc.codec "[REDACTED]") m =
      json_Marshal (JSON := jsondoc.codec "[REDACTED]")
        (AValue (VMap (MaskSensitiveData "[REDACTED]" credentialFilter
                         (Some {[ "password" := VString "p1" ]})))).
Proof.
  apply (EncodeEntry_then_MarshalJSON (codec := jsondoc.codec "[REDACTED]")
           "***" "[REDACTED]" credentialFilter
           [zapcore.mkField "user" zapcore.ReflectType 0 ""
              (AValue (VMap (Some {[ "password" := VString "p1" ]})))] 0
           (zapcore.mkField "user" zapcore.ReflectType 0 ""
              (AValue (VMap (Some {[ "password" := VString "p1" ]}))))
           (Some {[ "password" := VString "p1" ]}));
    reflexivity.
Defined.

(** X12. Fields are redacted one by one, with no state carried from one
    field to the next: what is passed on for a sequence joined from two is
    what is passed on for the first followed by what is passed on for the
    second, and nothing is passed on for the empty sequence. *)
Theorem EncodeEntry_fieldwise
    (Mask : string) (filter : option SensitiveDataFilter)
    (fields fields' : list zapcore.Field) :
  forwarded Mask filter (fields ++ fields') =
    forwarded Mask filter fields ++ forwarded Mask filter fields' ∧
  forwarded Mask filter [] = [].
Proof.
  rewrite !forwarded_map. destruct filter as [filter |]; [| done].
  by rewrite fmap_app.
Qed.

(** ** The logger registry *)

Section LoggerFacts.

Lemma getLoggerLevel_cases level :
  (∃ lvl, (level, lvl) ∈ levelNames ∧ logger.getLoggerLevel level = Returns lvl) ∨
  ((level ∉ (fst <$> levelNames)) ∧
   logger.getLoggerLevel level = Panics "invalid log level").
Proof.
  unfold logger.getLoggerLevel, levelNames. simpl.
  repeat lazymatch goal with
  | |- context [decide (level = ?name)] =>
      destruct (decide (level = name)) as [-> | ?];
      [left; eexists; split; [| reflexivity];
       repeat first [apply list_elem_of_here | apply list_elem_of_further] |]
  end.
  right. split; [| done]. rewrite !not_elem_of_cons.
  repeat split; try done. apply not_elem_of_nil.
Qed.

Lemma getLoggerLevel_Returns level lvl :
  logger.getLoggerLevel level = Returns lvl ↔ (level, lvl) ∈ levelNames.
Proof.
  split.
  - intros Hlevel.
    destruct (getLoggerLevel_cases level) as [(lvl' & Hin & Heq) | [_ Heq]];
      rewrite Heq in Hlevel; by simplify_eq.
  - unfold levelNames. rewrite !elem_of_cons, elem_of_nil.
    intros Hin. destruct_or!; by simplify_eq.
Qed.

Lemma getLoggerLevel_Panics level msg :
  logger.getLoggerLevel level = Panics msg ↔
  (level ∉ (fst <$> levelNames)) ∧ msg = "invalid log level".
Proof.
  split.
  - intros Hlevel.
    destruct (getLoggerLevel_cases level) as [(lvl' & Hin & Heq) | [Hout Heq]];
      rewrite Heq in Hlevel; by simplify_eq.
  - intros [Hout ->].
    destruct (getLoggerLevel_cases level) as [(lvl' & Hin & Heq) | [_ Heq]];
      [| done].
    destruct Hout. apply list_elem_of_fmap. by exists (level, lvl').
Qed.

Lemma getLoggerLevel_case_sensitive level level' lvl :
  logger.getLoggerLevel level = Returns lvl →
  caseVariant level level' = true →
  level ≠ level' →
  logger.getLoggerLevel level' = Panics "invalid log level".
Proof.
  intros Hlevel Hvariant Hne.
  apply getLoggerLevel_Returns in Hlevel.
  apply getLoggerLevel_Panics. split; [| done].
  unfold levelNames in *. simpl.
  rewrite !elem_of_cons, elem_of_nil in Hlevel.
  rewrite !not_elem_of_cons.
  destruct_or!; simplify_eq; repeat split; try apply not_elem_of_nil;
    intros ->; (done || discriminate).
Qed.

Lemma second_newCore_level cfg :
  logger.second.newCore cfg =
    match logger.getLoggerLevel (logger.Level cfg) with
    | Panics msg => Panics msg
    | Returns level =>
        Returns (zapobj.NewCore
          (if logger.SensitiveFilter cfg
           then zapobj.SensitiveDataEncoderPtr logger.second.encoder
                  (NewSensitiveDataFilter (logger.SensitiveFields cfg))
           else logger.second.encoder)
          (if decide (logger.Type_ cfg = logger.Console) then zapobj.Stdout
           else if decide (logger.Type_ cfg = logger.File) then
             zapobj.Lumberjack (logger.Path cfg) (logger.MaxSize cfg)
               (logger.MaxBackups cfg) (logger.MaxAge cfg) (logger.Compress cfg)
           else zapobj.nilWriteSyncer)
          level)
    end.
Proof.
  unfold logger.second.newCore.
  destruct (logger.getLoggerLevel (logger.Level cfg)) as [level | msg];
    repeat case_decide; done.
Qed.

Lemma runEncoder_sensitive {Entry Buffer} (json console : zapcore.Encoder Entry Buffer)
    base filter run :
  runEncoder json console base = Some run →
  ∃ run',
    runEncoder json console (zapobj.SensitiveDataEncoderPtr base filter) = Some run' ∧
    ∀ Mask ent fields,
      run' Mask ent fields = run Mask ent (forwarded Mask (Some filter) fields).
Proof.
  intros Hbase. cbn [runEncoder]. rewrite Hbase. eexists. split; [done |].
  intros Mask ent fields. cbv beta. by rewrite EncodeEntry_forwarded.
Qed.

Lemma first_newCore_cases cfg :
  logger.first.newCore cfg =
    if decide (logger.Type_ cfg = logger.Console) then
      match logger.getLoggerLevel (logger.Level cfg) with
      | Panics msg => Panics msg
      | Returns level =>
          Returns (zapobj.NewCore zapobj.NewConsoleEncoder zapobj.Stdout level)
      end
    else if decide (logger.Type_ cfg = logger.File) then
      match logger.getLoggerLevel (logger.Level cfg) with
      | Panics msg => Panics msg
      | Returns level =>
          Returns (zapobj.NewCore
            (if logger.SensitiveFilter cfg
             then zapobj.SensitiveDataEncoderPtr zapobj.nilEncoder
                    (NewSensitiveDataFilter (logger.SensitiveFields cfg))
             else zapobj.NewJSONEncoder)
            (zapobj.Lumberjack (logger.Path cfg) (logger.MaxSize cfg)
               (logger.MaxBackups cfg) (logger.MaxAge cfg) (logger.Compress cfg))
            level)
      end
    else if logger.SensitiveFilter cfg then Returns zapobj.nilCore
    else Panics ("unknown zap core type: " ++ logger.Type_ cfg)%string.
Proof.
  unfold logger.first.newCore.
  destruct (decide (logger.Type_ cfg = logger.Console)) as [Hc | Hc];
    destruct (decide (logger.Type_ cfg = logger.File)) as [Hf | Hf];
    destruct (logger.SensitiveFilter cfg); try done.
  all: rewrite Hc in Hf; discriminate.
Qed.

Lemma registered_cons newCore c cfg before lg name :
  loggerOf newCore c = Some lg →
  registered newCore (c :: cfg) before name =
  registered newCore cfg (<[logger.Name c := lg]> before) name.
Proof.
  intros Hlg. unfold registered, lastNamed. rewrite filter_cons.
  destruct (decide (logger.Name c = name)) as [Hname | Hname].
  - rewrite last_cons.
    destruct (last (filter _ cfg)); [done |].
    by rewrite Hname, lookup_insert_eq in *.
  - destruct (last (filter _ cfg)); [done |].
    by rewrite lookup_insert_ne.
Qed.

Lemma initLoop_Returns newCore cfg cores0 st cores :
  coresOf newCore cfg = Some cores →
  ∃ st',
    logger.initLoop newCore cfg cores0 st = (Returns (cores0 ++ cores), st') ∧
    logger.L st' = logger.L st ∧
    logger.once st' = logger.once st ∧
    ∀ name, logger.l st' !! name = registered newCore cfg (logger.l st) name.
Proof.
  revert cores0 st cores. induction cfg as [| c cfg IH]; intros cores0 st cores.
  - intros [= <-]. exists st. by rewrite app_nil_r.
  - simpl. destruct (newCore c) as [core | msg] eqn:Hcore; [| done].
    destruct (coresOf newCore cfg) as [cores' |] eqn:Hcores; [| done].
    intros [= <-].
    destruct (IH (cores0 ++ [core])
                 (logger.Store (logger.Name c) (logger.newLogger core []) st)
                 cores' eq_refl) as (st' & Hloop & HL & Honce & Hreg).
    exists st'. rewrite Hloop, <- app_assoc. repeat split; try done.
    intros name. rewrite Hreg. symmetry. apply registered_cons.
    unfold loggerOf. by rewrite Hcore.
Qed.

Lemma initLoop_Panics newCore good bad rest cores0 st cores msg :
  coresOf newCore good = Some cores →
  newCore bad = Panics msg →
  ∃ st',
    logger.initLoop newCore (good ++ bad :: rest) cores0 st = (Panics msg, st') ∧
    logger.L st' = logger.L st ∧
    logger.once st' = logger.once st ∧
    ∀ name, logger.l st' !! name = registered newCore good (logger.l st) name.
Proof.
  intros Hgood Hbad. revert cores0 st cores Hgood.
  induction good as [| c good IH]; intros cores0 st cores.
  - intros _. exists st. simpl. by rewrite Hbad.
  - simpl. destruct (newCore c) as [core | msg'] eqn:Hcore; [| done].
    destruct (coresOf newCore good) as [cores' |] eqn:Hcores; [| done].
    intros _.
    destruct (IH (cores0 ++ [core])
                 (logger.Store (logger.Name c) (logger.newLogger core []) st)
                 cores' eq_refl) as (st' & Hloop & HL & Honce & Hreg).
    exists st'. rewrite Hloop. repeat split; try done.
    intros name. rewrite Hreg. symmetry. apply registered_cons.
    unfold loggerOf. by rewrite Hcore.
Qed.

Lemma onceDo_done body st :
  logger.once st = true → logger.onceDo body st = (Returns tt, st).
Proof. intros Hdone. unfold logger.onceDo. by rewrite Hdone. Qed.

Lemma onceDo_sets body st :
  logger.once (logger.onceDo body st).2 = true.
Proof.
  unfold logger.onceDo. destruct (logger.once st) eqn:Hdone; [done |].
  by destruct (body st).
Qed.

End LoggerFacts.

(** X13. [getLoggerLevel] returns for exactly six names, spelled in lower
    case: debug, info, warn, error, panic and fatal, each with its own
    level; for any other string it panics with "invalid log level", in
    particular for any other spelling of an accepted name, such as one in
    upper case. *)
Theorem getLoggerLevel_accepted_names (level : string) :
  (∀ lvl, logger.getLoggerLevel level = Returns lvl ↔ (level, lvl) ∈ levelNames) ∧
  (∀ msg, logger.getLoggerLevel level = Panics msg ↔
          (level ∉ (fst <$> levelNames)) ∧ msg = "invalid log level") ∧
  (∀ level' lvl,
     logger.getLoggerLevel level = Returns lvl →
     caseVariant level level' = true → level ≠ level' →
     logger.getLoggerLevel level' = Panics "invalid log level").
Proof.
  split; [| split].
  - intros lvl. apply getLoggerLevel_Returns.
  - intros msg. apply getLoggerLevel_Panics.
  - intros level' lvl. apply getLoggerLevel_case_sensitive.
Qed.

(** X14. In the second block, a core is built for every configuration
    whose level name is accepted, whatever its type; its encoder hands
    the JSON encoder the redacted field sequence for the configured
    names when the sensitive filter is switched on, and the fields as
    they are when it is off. *)
Theorem second_newCore_encoder {Entry Buffer : Type}
    (json console : zapcore.Encoder Entry Buffer)
    (cfg : logger.Config) (level : zapobj.Level) :
  logger.getLoggerLevel (logger.Level cfg) = Returns level →
  ∃ enc ws run,
    logger.second.newCore cfg = Returns (zapobj.NewCore enc ws level) ∧
    runEncoder json console enc = Some run ∧
    ∀ Mask ent fields,
      run Mask ent fields =
        zapcore.EncodeEntry json ent
          (forwarded Mask
             (if logger.SensitiveFilter cfg
              then Some (NewSensitiveDataFilter (logger.SensitiveFields cfg))
              else None)
             fields).
Proof.
  intros Hlevel. rewrite second_newCore_level, Hlevel.
  destruct (logger.SensitiveFilter cfg).
  - destruct (runEncoder_sensitive json console logger.second.encoder
                (NewSensitiveDataFilter (logger.SensitiveFields cfg))
                (λ _, zapcore.EncodeEntry json) eq_refl) as (run & Hrun & Hspec).
    eexists _, _, run. split; [done |]. split; [done |]. apply Hspec.
  - eexists _, _, _. split; [done |]. split; [done |].
    intros Mask ent fields. by rewrite forwarded_map.
Qed.

Lemma second_newCore_encoder_witness :
  ∃ enc ws run,
    logger.second.newCore consoleConfig =
      Returns (zapobj.NewCore enc ws zapobj.InfoLevel) ∧
    runEncoder recorder recorder enc = Some run ∧
    ∀ Mask ent fields,
      run Mask ent fields =
        zapcore.EncodeEntry recorder ent
          (forwarded Mask
             (if logger.SensitiveFilter consoleConfig
              then Some (NewSensitiveDataFilter (logger.SensitiveFields consoleConfig))
              else None)
             fields).
Proof.
  apply (second_newCore_encoder recorder recorder consoleConfig zapobj.InfoLevel).
  reflexivity.
Defined.

(** X15. In the second block [newCore] panics exactly when the level
    name is not accepted; a type that is neither console nor file does
    not make it panic but gives a core without a writer. *)
Theorem second_newCore_panics (cfg : logger.Config) :
  (∀ msg, logger.second.newCore cfg = Panics msg ↔
          logger.getLoggerLevel (logger.Level cfg) = Panics msg) ∧
  (∀ level,
     logger.getLoggerLevel (logger.Level cfg) = Returns level →
     logger.Type_ cfg ≠ logger.Console → logger.Type_ cfg ≠ logger.File →
     ∃ enc, logger.second.newCore cfg =
              Returns (zapobj.NewCore enc zapobj.nilWriteSyncer level)).
Proof.
  rewrite second_newCore_level. split.
  - intros msg.
    destruct (logger.getLoggerLevel (logger.Level cfg)); split; intros; by simplify_eq.
  - intros level -> Hc Hf. rewrite !decide_False by done. by eexists.
Qed.



(** X17. In the first block [newCore] panics in two cases only: for a
    console or file target whose level name is not accepted, and for a
    target of another type with the sensitive filter switched off; with
    the filter switched on, a target of another type makes it return
    the nil core without looking at the level. *)
Theorem first_newCore_panics (cfg : logger.Config) (msg : string) :
  logger.first.newCore cfg = Panics msg ↔
  ((logger.Type_ cfg = logger.Console ∨ logger.Type_ cfg = logger.File) ∧
   logger.getLoggerLevel (logger.Level cfg) = Panics msg) ∨
  (logger.Type_ cfg ≠ logger.Console ∧ logger.Type_ cfg ≠ logger.File ∧
   logger.SensitiveFilter cfg = false ∧
   msg = ("unknown zap core type: " ++ logger.Type_ cfg)%string).
Proof.
  rewrite first_newCore_cases.
  destruct (decide (logger.Type_ cfg = logger.Console)) as [Hc | Hc].
  { destruct (logger.getLoggerLevel _); intuition congruence. }
  destruct (decide (logger.Type_ cfg = logger.File)) as [Hf | Hf].
  { destruct (logger.getLoggerLevel _); intuition congruence. }
  destruct (logger.SensitiveFilter cfg); intuition congruence.
Qed.

(** X18. [Init] takes effect once: whatever a first call did, also when
    it panicked half way, any later call returns at once and leaves the
    package variables as they are. *)
Theorem Init_runs_once (cfg cfg' : list logger.Config) (st : logger.globals) :
  logger.first.Init cfg' (logger.first.Init cfg st).2
    = (Returns tt, (logger.first.Init cfg st).2) ∧
  logger.second.Init cfg' (logger.second.Init cfg st).2
    = (Returns tt, (logger.second.Init cfg st).2).
Proof. split; apply onceDo_done, onceDo_sets. Qed.

Lemma second_Init_state (cfg : list logger.Config)
    (cores : list zapobj.Core) (st : logger.globals) :
  logger.once st = false →
  coresOf logger.second.newCore cfg = Some cores →
  ∃ st',
    logger.second.Init cfg st = (Returns tt, st') ∧
    logger.once st' = true ∧
    logger.L st' =
      Some (logger.newLogger
              (zapobj.NewTee
                 match cfg with
                 | [] => [zapobj.NewCore logger.second.encoder zapobj.Stdout
                            zapobj.DebugLevel]
                 | _ => cores
                 end) []) ∧
    ∀ name,
      logger.l st' !! name = registered logger.second.newCore cfg (logger.l st) name.
Proof.
  intros Honce Hcores. unfold logger.second.Init, logger.onceDo. rewrite Honce.
  destruct cfg as [| c cfg].
  - simpl. eexists. by repeat split.
  - rewrite decide_True by (simpl; lia).
    destruct (initLoop_Returns logger.second.newCore (c :: cfg) [] st cores Hcores)
      as (st' & -> & HL & _ & Hreg).
    eexists. by repeat split.
Qed.

(** X19. In the second block, a first [Init] with configurations whose
    cores can all be built stores under every configured name the logger
    of the last configuration of that name, leaves the other names of the
    registry alone, and makes [L] a logger on the tee of all cores in
    order; without configurations it stores nothing and makes [L] a
    logger on one debug-level core that writes JSON to standard
    output. *)
Theorem second_Init_registers (cfg : list logger.Config)
    (cores : list zapobj.Core) (st : logger.globals) :
  logger.once st = false →
  coresOf logger.second.newCore cfg = Some cores →
  ∃ st',
    logger.second.Init cfg st = (Returns tt, st') ∧
    logger.once st' = true ∧
    logger.L st' =
      Some (logger.newLogger
              (zapobj.NewTee
                 match cfg with
                 | [] => [zapobj.NewCore logger.second.encoder zapobj.Stdout
                            zapobj.DebugLevel]
                 | _ => cores
                 end) []) ∧
    ∀ name,
      logger.l st' !! name = registered logger.second.newCore cfg (logger.l st) name.
Proof. apply second_Init_state. Qed.

Lemma second_Init_registers_witness :
  ∃ st',
    logger.second.Init [consoleConfig; fileConfig] logger.initial
      = (Returns tt, st') ∧
    logger.once st' = true ∧
    logger.L st' =
      Some (logger.newLogger
              (zapobj.NewTee
                 (default [] (coresOf logger.second.newCore
                                [consoleConfig; fileConfig]))) []) ∧
    ∀ name,
      logger.l st' !! name =
        registered logger.second.newCore [consoleConfig; fileConfig]
          (logger.l logger.initial) name.
Proof.
  apply (second_Init_registers [consoleConfig; fileConfig]
           (default [] (coresOf logger.second.newCore [consoleConfig; fileConfig]))
           logger.initial); reflexivity.
Defined.

(** X20. In the second block, when [newCore] panics on a configuration,
    [Init] panics with it half done: the loggers of the configurations
    before it stay stored, [L] is not set, and [Init] will not run
    again. *)
Theorem second_Init_panic (good rest : list logger.Config) (bad : logger.Config)
    (cores : list zapobj.Core) (msg : string) (st : logger.globals) :
  logger.once st = false →
  coresOf logger.second.newCore good = Some cores →
  logger.second.newCore bad = Panics msg →
  ∃ st',
    logger.second.Init (good ++ bad :: rest) st = (Panics msg, st') ∧
    logger.once st' = true ∧
    logger.L st' = logger.L st ∧
    (∀ name,
       logger.l st' !! name = registered logger.second.newCore good (logger.l st) name) ∧
    ∀ cfg, logger.second.Init cfg st' = (Returns tt, st').
Proof.
  intros Honce Hcores Hbad. unfold logger.second.Init at 1, logger.onceDo.
  rewrite Honce.
  rewrite decide_True by (rewrite length_app; simpl; lia).
  destruct (initLoop_Panics logger.second.newCore good bad rest [] st cores msg
              Hcores Hbad) as (st' & -> & HL & _ & Hreg).
  eexists. by repeat split.
Qed.

Lemma second_Init_panic_witness :
  ∃ st',
    logger.second.Init ([consoleConfig] ++ auditConfig :: [fileConfig]) logger.initial
      = (Panics "invalid log level", st') ∧
    logger.once st' = true ∧
    logger.L st' = logger.L logger.initial ∧
    (∀ name,
       logger.l st' !! name =
         registered logger.second.newCore [consoleConfig]
           (logger.l logger.initial) name) ∧
    ∀ cfg, logger.second.Init cfg st' = (Returns tt, st').
Proof.
  apply (second_Init_panic [consoleConfig] [fileConfig] auditConfig
           (default [] (coresOf logger.second.newCore [consoleConfig]))
           "invalid log level" logger.initial); reflexivity.
Defined.

Lemma first_Init_state (cfg : list logger.Config)
    (cores : list zapobj.Core) (st : logger.globals) :
  logger.once st = false →
  coresOf logger.first.newCore cfg = Some cores →
  ∃ st',
    logger.first.Init cfg st = (Returns tt, st') ∧
    logger.once st' = true ∧
    logger.L st' =
      Some match cfg with
           | [] => defaultLog
           | _ => logger.newLogger (zapobj.NewTee cores) []
           end ∧
    ∀ name,
      logger.l st' !! name =
        registered logger.first.newCore cfg
          (<[logger.first.defaultLogName := defaultLog]> (logger.l st)) name.
Proof.
  intros Honce Hcores. unfold logger.first.Init, logger.onceDo. rewrite Honce.
  destruct cfg as [| c cfg].
  - simpl. eexists. by repeat split.
  - rewrite decide_True by (simpl; lia).
    destruct (initLoop_Returns logger.first.newCore (c :: cfg) []
                (logger.Store logger.first.defaultLogName defaultLog st)
                cores Hcores) as (st' & Hloop & HL & _ & Hreg).
    unfold defaultLog in Hloop. rewrite Hloop.
    eexists. by repeat split.
Qed.



(** X22. [AddTargetLogger] for a configuration whose core can be built
    stores its logger under the name of the configuration, replacing
    what was there: [GetTargetLogger] then finds it, [InfoTo] reaches it
    at info level, every other name is found as before, and the global
    logger [L] is not touched. *)
Theorem AddTargetLogger_registers (c : logger.Config) (core : zapobj.Core)
    (st : logger.globals) (msg : string) (fields : list zapcore.Field) :
  logger.first.newCore c = Returns core →
  ∃ st',
    logger.first.AddTargetLogger c st = (Returns tt, st') ∧
    logger.first.GetTargetLogger (logger.Name c) st'
      = (Some (logger.newLogger core []), true) ∧
    (∀ name, name ≠ logger.Name c →
       logger.first.GetTargetLogger name st' = logger.first.GetTargetLogger name st) ∧
    logger.L st' = logger.L st ∧
    logger.InfoTo (logger.Name c) msg fields st' =
      Some (zapobj.mkLogCall (logger.newLogger core []) zapobj.InfoLevel msg fields).
Proof.
  intros Hcore. unfold logger.first.AddTargetLogger. rewrite Hcore.
  eexists. split; [done |].
  unfold logger.first.GetTargetLogger, logger.InfoTo, logger.LogTo. simpl.
  rewrite lookup_insert_eq. repeat split; try done.
  intros name Hname. by rewrite lookup_insert_ne.
Qed.

Lemma AddTargetLogger_registers_witness :
  ∃ st',
    logger.first.AddTargetLogger consoleConfig logger.initial = (Returns tt, st') ∧
    logger.first.GetTargetLogger (logger.Name consoleConfig) st'
      = (Some (logger.newLogger
                 (zapobj.NewCore zapobj.NewConsoleEncoder zapobj.Stdout
                    zapobj.InfoLevel) []), true) ∧
    (∀ name, name ≠ logger.Name consoleConfig →
       logger.first.GetTargetLogger name st' =
       logger.first.GetTargetLogger name logger.initial) ∧
    logger.L st' = logger.L logger.initial ∧
    logger.InfoTo (logger.Name consoleConfig) "started" [] st' =
      Some (zapobj.mkLogCall
              (logger.newLogger
                 (zapobj.NewCore zapobj.NewConsoleEncoder zapobj.Stdout
                    zapobj.InfoLevel) [])
              zapobj.InfoLevel "started" []).
Proof.
  apply (AddTargetLogger_registers consoleConfig
           (zapobj.NewCore zapobj.NewConsoleEncoder zapobj.Stdout zapobj.InfoLevel)
           logger.initial "started" []).
  reflexivity.
Defined.

Section TargetFacts.

Lemma lastNamed_None name cfg :
  lastNamed name cfg = None ↔ ¬ (name ∈ logger.Name <$> cfg).
Proof.
  unfold lastNamed. rewrite last_None. split.
  - intros Hnone Hin. apply list_elem_of_fmap in Hin as (c & -> & Hc).
    assert (c ∈ filter (λ c', logger.Name c' = logger.Name c) cfg) as Hf
      by by apply list_elem_of_filter.
    rewrite Hnone in Hf. by apply elem_of_nil in Hf.
  - intros Hout. destruct (filter _ cfg) as [| c rest] eqn:Hf; [done |].
    assert (c ∈ filter (λ c', logger.Name c' = name) cfg) as Hc
      by (rewrite Hf; apply list_elem_of_here).
    apply list_elem_of_filter in Hc as [<- Hc].
    destruct Hout. apply list_elem_of_fmap. eauto.
Qed.

Lemma lastNamed_Some name cfg c :
  lastNamed name cfg = Some c → c ∈ cfg ∧ logger.Name c = name.
Proof.
  unfold lastNamed. intros Hlast. apply last_Some_elem_of in Hlast.
  by apply list_elem_of_filter in Hlast as [? ?].
Qed.

Lemma coresOf_loggerOf newCore cfg cores c :
  coresOf newCore cfg = Some cores → c ∈ cfg → is_Some (loggerOf newCore c).
Proof.
  revert cores. induction cfg as [| c' cfg IH]; intros cores Hcores Hc.
  - by apply elem_of_nil in Hc.
  - simpl in Hcores. destruct (newCore c') as [core |] eqn:Hcore; [| done].
    destruct (coresOf newCore cfg) as [cores' |]; [| done].
    apply elem_of_cons in Hc as [-> | Hc].
    + unfold loggerOf. rewrite Hcore. by eexists.
    + by apply (IH cores').
Qed.

Lemma registered_is_Some newCore cfg cores before name :
  coresOf newCore cfg = Some cores →
  is_Some (registered newCore cfg before name) ↔
  name ∈ logger.Name <$> cfg ∨ is_Some (before !! name).
Proof.
  intros Hcores. unfold registered.
  destruct (lastNamed name cfg) as [c |] eqn:Hlast.
  - apply lastNamed_Some in Hlast as [Hc <-]. split.
    + intros _. left. apply list_elem_of_fmap. eauto.
    + intros _. by apply (coresOf_loggerOf newCore cfg cores).
  - apply lastNamed_None in Hlast. tauto.
Qed.

Lemma LogTo_is_Some target lvl msg fields st :
  is_Some (logger.LogTo target lvl msg fields st) ↔
  is_Some (logger.l st !! target).
Proof.
  unfold logger.LogTo. destruct (logger.l st !! target); split;
    intros [? ?]; (done || by eexists).
Qed.

End TargetFacts.

(** X23. After a first [Init] of the first block with configurations
    whose cores can all be built, [LogTo] reaches a logger exactly for
    the name "default" and for the configured names. *)
Theorem first_Init_targets (cfg : list logger.Config) (cores : list zapobj.Core)
    (target msg : string) (lvl : zapobj.Level) (fields : list zapcore.Field) :
  coresOf logger.first.newCore cfg = Some cores →
  is_Some (logger.LogTo target lvl msg fields
             (logger.first.Init cfg logger.initial).2) ↔
  target = "default" ∨ target ∈ logger.Name <$> cfg.
Proof.
  intros Hcores.
  destruct (first_Init_state cfg cores logger.initial eq_refl Hcores)
    as (st' & -> & _ & _ & Hreg).
  rewrite LogTo_is_Some. simpl. rewrite Hreg.
  rewrite (registered_is_Some _ _ cores) by done.
  unfold logger.first.defaultLogName. simpl.
  destruct (decide (target = "default")) as [-> | Hne].
  - rewrite lookup_insert_eq. split; [by left | intros _; right; by eexists].
  - rewrite lookup_insert_ne, lookup_empty by done.
    split; intros [H | H]; [by right | by destruct H | done | by left].
Qed.

Lemma first_Init_targets_witness :
  is_Some (logger.LogTo "default" zapobj.WarnLevel "disk full" []
             (logger.first.Init [consoleConfig] logger.initial).2) ↔
  "default" = "default" ∨ "default" ∈ logger.Name <$> [consoleConfig].
Proof.
  apply (first_Init_targets [consoleConfig]
           (default [] (coresOf logger.first.newCore [consoleConfig]))
           "default" "disk full" zapobj.WarnLevel []).
  reflexivity.
Defined.

(** X24. After a first [Init] of the second block with configurations
    whose cores can all be built, [LogTo] reaches a logger exactly for
    the configured names: no logger is stored under "default". *)
Theorem second_Init_targets (cfg : list logger.Config) (cores : list zapobj.Core)
    (target msg : string) (lvl : zapobj.Level) (fields : list zapcore.Field) :
  coresOf logger.second.newCore cfg = Some cores →
  is_Some (logger.LogTo target lvl msg fields
             (logger.second.Init cfg logger.initial).2) ↔
  target ∈ logger.Name <$> cfg.
Proof.
  intros Hcores.
  destruct (second_Init_state cfg cores logger.initial eq_refl Hcores)
    as (st' & -> & _ & _ & Hreg).
  rewrite LogTo_is_Some. simpl. rewrite Hreg.
  rewrite (registered_is_Some _ _ cores) by done. simpl.
  rewrite lookup_empty. split; [intros [H | H] | by left]; [done | by destruct H].
Qed.

Lemma second_Init_targets_witness :
  is_Some (logger.LogTo "default" zapobj.WarnLevel "disk full" []
             (logger.second.Init [consoleConfig] logger.initial).2) ↔
  "default" ∈ logger.Name <$> [consoleConfig].
Proof.
  apply (second_Init_targets [consoleConfig]
           (default [] (coresOf logger.second.newCore [consoleConfig]))
           "default" "disk full" zapobj.WarnLevel []).
  reflexivity.
Defined.
